(** * Project-Manager: the project registry of [src/app.ts], and the form
      boundary in front of it

    A shallow embedding of the TypeScript program: the [Project] record, the
    [ProjectState] store with its subscriber list ([addListener],
    [addProject], [moveProject], [updateListeners]), the filter that the two
    [ProjectList] columns subscribe with, [validate], and the submit handler
    of [ProjectInput] ([gatherUserInput], [clearInput]).

    [src/app.ts] holds the program twice: the full text, and after it an
    earlier text without drag and drop, in which [addProject] runs the loop
    of [updateListeners] in line and there is no [moveProject].  The two
    agree on everything they share; the embedding follows the full text.

    The part of the JavaScript runtime the program leans on is in [Module JS]:
    strings with [trim] and [length], IEEE binary64 numbers with [<=] and
    [>=], the conversion [+str] from a string to a number and
    [Number.prototype.toString].  The DOM is not modelled beyond the values
    of the three input elements and the calls of [alert]. *)

From Stdlib Require Import ZArith NArith List String Ascii Bool Lia.
From Stdlib Require Import SpecFloat DecimalString.
From Stdlib Require Import Permutation.
Import ListNotations.

Local Open Scope string_scope.
Local Open Scope list_scope.
Local Open Scope Z_scope.

(* ================================================================== *)
(** * The JavaScript runtime used by the program *)
(* ================================================================== *)

Module JS.

(** ** Numbers

    A JavaScript number is an IEEE 754 binary64 value: [spec_float] at
    precision 53 with infinities at exponent 1024.  A finite non-zero value
    [S754_finite s m e] stands for [(-1)^s * m * 2^e]. *)

Definition number := spec_float.
Definition prec : Z := 53.
Definition emax : Z := 1024.

(** The number of an integer that a binary64 holds exactly or rounds to
    (numeric literals such as [1] and [5], and [String.prototype.length]). *)
Definition of_Z (z : Z) : number := binary_normalize prec emax z 0 false.
Definition of_nat (n : nat) : number := of_Z (Z.of_nat n).

(** [x <= y] and [x >= y]: false as soon as one side is NaN. *)
Definition le (x y : number) : bool := SFleb x y.
Definition ge (x y : number) : bool := SFleb y x.

(** [Number.isInteger]. *)
Definition isInteger (x : number) : bool :=
  match x with
  | S754_zero _ => true
  | S754_finite _ m e =>
      if 0 <=? e then true else (Zpos m mod 2 ^ (- e) =? 0)
  | _ => false
  end.

(** The binary64 nearest to [m * 10^e] (ties to even), for [m >= 0]. *)
Definition round_decimal (negative : bool) (m : N) (e : Z) : number :=
  match m with
  | N0 => S754_zero negative
  | Npos p =>
      if 0 <=? e
      then binary_normalize prec emax
             (if negative then - (Zpos p * 10 ^ e) else Zpos p * 10 ^ e) 0 negative
      else
        let '(q, e', l) := SFdiv_core_binary prec emax (Zpos p) 0 (10 ^ (- e)) 0 in
        binary_round_aux prec emax negative q e' l
  end.

(** ** Strings

    A string is a sequence of code units; the model keeps the code units a
    Rocq [string] holds (0 to 255). *)

(** WhiteSpace and LineTerminator code units: TAB, LF, VT, FF, CR, SP and
    NBSP. *)
Definition isWhiteSpace (c : ascii) : bool :=
  let n := N_of_ascii c in
  ((9 <=? n) && (n <=? 13) || (n =? 32) || (n =? 160))%N.

Fixpoint trimStart (s : string) : string :=
  match s with
  | EmptyString => EmptyString
  | String c r => if isWhiteSpace c then trimStart r else s
  end.

Fixpoint trimEnd (s : string) : string :=
  match s with
  | EmptyString => EmptyString
  | String c r =>
      match trimEnd r with
      | EmptyString => if isWhiteSpace c then EmptyString else String c EmptyString
      | r' => String c r'
      end
  end.

(** [String.prototype.trim]. *)
Definition trim (s : string) : string := trimEnd (trimStart s).

(** ** From a string to a number: [+str] (StringToNumber) *)

Definition isDigit (c : ascii) : bool :=
  let n := N_of_ascii c in ((48 <=? n) && (n <=? 57))%N.

(** The value of a digit in a radix up to 16, if [c] is one. *)
Definition digitValue (radix : N) (c : ascii) : option N :=
  let n := N_of_ascii c in
  let v :=
    if ((48 <=? n) && (n <=? 57))%N then Some (n - 48)%N
    else if ((97 <=? n) && (n <=? 102))%N then Some (n - 87)%N
    else if ((65 <=? n) && (n <=? 70))%N then Some (n - 55)%N
    else None in
  match v with
  | Some d => if (d <? radix)%N then Some d else None
  | None => None
  end.

(** The integer written by a non-empty run of digits, [None] if a character
    is not a digit of the radix or the run is empty. *)
Fixpoint digitsValue (radix : N) (acc : N) (s : string) : option N :=
  match s with
  | EmptyString => Some acc
  | String c r =>
      match digitValue radix c with
      | Some d => digitsValue radix (acc * radix + d)%N r
      | None => None
      end
  end.

Definition integerLiteral (radix : N) (s : string) : option N :=
  match s with
  | EmptyString => None
  | _ => digitsValue radix 0%N s
  end.

(** The longest prefix of decimal digits, and what follows it. *)
Fixpoint spanDigits (s : string) : string * string :=
  match s with
  | String c r =>
      if isDigit c
      then let '(d, rest) := spanDigits r in (String c d, rest)
      else (EmptyString, s)
  | EmptyString => (EmptyString, EmptyString)
  end.

(** ExponentPart, or nothing: the exponent, [None] when what follows the
    mantissa is not an exponent part. *)
Definition exponentPart (s : string) : option Z :=
  match s with
  | EmptyString => Some 0
  | String c r =>
      if (Ascii.eqb c "e" || Ascii.eqb c "E")%bool then
        let '(neg, ds) :=
          match r with
          | String "+" t => (false, t)
          | String "-" t => (true, t)
          | _ => (false, r)
          end in
        match integerLiteral 10 ds with
        | Some n => Some (if neg then - Z.of_N n else Z.of_N n)
        | None => None
        end
      else None
  end.

(** StrUnsignedDecimalLiteral: [Infinity], or digits with an optional
    fraction and an optional exponent, at least one digit before or after
    the point. *)
Definition unsignedDecimalLiteral (negative : bool) (s : string) : number :=
  if String.eqb s "Infinity" then S754_infinity negative
  else
    let '(ip, r1) := spanDigits s in
    let '(fp, r2) :=
      match r1 with
      | String "." r => spanDigits r
      | _ => (EmptyString, r1)
      end in
    match (ip ++ fp)%string with
    | EmptyString => S754_nan
    | ds =>
        match digitsValue 10 0%N ds, exponentPart r2 with
        | Some m, Some e => round_decimal negative m (e - Z.of_nat (String.length fp))
        | _, _ => S754_nan
        end
    end.

Definition nonDecimalLiteral (radix : N) (digits : string) : number :=
  match integerLiteral radix digits with
  | Some n => of_Z (Z.of_N n)
  | None => S754_nan
  end.

(** StringToNumber: white space around the literal is dropped, the empty
    string is 0, anything that is not a StrNumericLiteral is NaN. *)
Definition toNumber (str : string) : number :=
  match trim str with
  | EmptyString => S754_zero false
  | String "0" (String "x" r) | String "0" (String "X" r) => nonDecimalLiteral 16 r
  | String "0" (String "o" r) | String "0" (String "O" r) => nonDecimalLiteral 8 r
  | String "0" (String "b" r) | String "0" (String "B" r) => nonDecimalLiteral 2 r
  | String "+" r => unsignedDecimalLiteral false r
  | String "-" r => unsignedDecimalLiteral true r
  | s => unsignedDecimalLiteral false s
  end.

(** ** From a number to a string: [Number.prototype.toString()]

    For a finite [x > 0] the digits are those of the integer [s] with the
    fewest digits [k] such that [s * 10^(n-k)] converts back to [x]; of the
    two [k]-digit neighbours of [x] the closer one is taken, the even one on
    a tie. *)

(** [x = num / den], for [x = m * 2^e]. *)
Definition fraction (m : positive) (e : Z) : Z * Z :=
  if 0 <=? e then (Zpos m * 2 ^ e, 1) else (Zpos m, 2 ^ (- e)).

(** [x / 10^scale] as a fraction. *)
Definition scaled (x : Z * Z) (scale : Z) : Z * Z :=
  let '(num, den) := x in
  if 0 <=? scale then (num, den * 10 ^ scale) else (num * 10 ^ (- scale), den).

(** The [n] with [10^(n-1) <= x < 10^n]; a binary64 lies between [10^-324]
    and [10^309]. *)
Definition decimalExponent (x : Z * Z) : Z :=
  let below n := let '(a, b) := scaled x n in a <? b in
  match find below (map (fun i => Z.of_nat i - 330) (seq 0 660)) with
  | Some n => n
  | None => 330
  end.

Definition sameNumber (x y : number) : bool :=
  match x, y with
  | S754_finite sx mx ex, S754_finite sy my ey =>
      Bool.eqb sx sy && (mx =? my)%positive && (ex =? ey)
  | _, _ => false
  end.

(** The [k]-digit integer [s] next to [x / 10^(n-k)] for which
    [s * 10^(n-k)] converts back to [x], if there is one. *)
Definition digitsOfLength (x : number) (xq : Z * Z) (n : Z) (k : Z) : option Z :=
  let '(a, b) := scaled xq (n - k) in
  let lo := a / b in
  let hi := lo + 1 in
  let r := a mod b in
  let ok s := sameNumber (round_decimal false (Z.to_N s) (n - k)) x in
  let loFirst :=
    match 2 * r ?= b with
    | Lt => true
    | Gt => false
    | Eq => Z.even lo
    end in
  let '(c1, c2) := if loFirst then (lo, hi) else (hi, lo) in
  if ok c1 then Some c1 else if ok c2 then Some c2 else None.

Fixpoint shortestDigits (x : number) (xq : Z * Z) (n : Z) (k : Z) (fuel : nat)
  : Z * Z :=
  match fuel with
  | O => (fst (scaled xq (n - k)) / snd (scaled xq (n - k)), k)
  | S fuel' =>
      match digitsOfLength x xq n k with
      | Some s => (s, k)
      | None => shortestDigits x xq n (k + 1) fuel'
      end
  end.

Definition decimalDigits (n : Z) : string :=
  NilZero.string_of_uint (N.to_uint (Z.to_N n)).

Fixpoint zeros (n : nat) : string :=
  match n with
  | O => EmptyString
  | S n' => String "0" (zeros n')
  end.

Fixpoint stripZeros (s : string) : string :=
  match s with
  | EmptyString => EmptyString
  | String c r =>
      match stripZeros r with
      | EmptyString => if Ascii.eqb c "0" then EmptyString else String c EmptyString
      | r' => String c r'
      end
  end.

(** The text for digits [ds] (no trailing zero) and decimal exponent [n]:
    plain notation for [-5 <= n <= 21], exponent notation outside. *)
Definition formatDigits (ds : string) (n : Z) : string :=
  let k := Z.of_nat (String.length ds) in
  if (-5 <=? n) && (n <=? 21) then
    if k <=? n then (ds ++ zeros (Z.to_nat (n - k)))%string
    else if 0 <? n then
      (substring 0 (Z.to_nat n) ds ++ "." ++
       substring (Z.to_nat n) (Z.to_nat (k - n)) ds)%string
    else ("0." ++ zeros (Z.to_nat (- n)) ++ ds)%string
  else
    let e := n - 1 in
    let sign : string := if e <? 0 then "-" else "+" in
    let exponent := (sign ++ decimalDigits (Z.abs e))%string in
    match ds with
    | String d EmptyString => (String d "e" ++ exponent)%string
    | String d rest => (String d "." ++ rest ++ "e" ++ exponent)%string
    | EmptyString => EmptyString
    end.

Definition toStringPositive (m : positive) (e : Z) : string :=
  let x := S754_finite false m e in
  let xq := fraction m e in
  let n := decimalExponent xq in
  let '(s, k) := shortestDigits x xq n 1 17 in
  let all := decimalDigits s in
  formatDigits (stripZeros all) (n + (Z.of_nat (String.length all) - k)).

Definition toString (x : number) : string :=
  match x with
  | S754_nan => "NaN"
  | S754_zero _ => "0"
  | S754_infinity false => "Infinity"
  | S754_infinity true => "-Infinity"
  | S754_finite false m e => toStringPositive m e
  | S754_finite true m e => ("-" ++ toStringPositive m e)%string
  end.

End JS.

(* ================================================================== *)
(** * The data model *)
(* ================================================================== *)

Inductive ProjectStatus := Active | Finished.

(** [a === b] on two statuses. *)
Definition ProjectStatus_eqb (a b : ProjectStatus) : bool :=
  match a, b with
  | Active, Active | Finished, Finished => true
  | _, _ => false
  end.

Record Project := new_Project {
  id : string;
  title : string;
  description : string;
  people : JS.number;
  status : ProjectStatus
}.

(** The assignment [project.status = newStatus]. *)
Definition set_status (project : Project) (newStatus : ProjectStatus) : Project :=
  new_Project (id project) (title project) (description project)
              (people project) newStatus.

(* ================================================================== *)
(** * The registry: [class ProjectState] *)
(* ================================================================== *)

(** A listener is a callback [(items: Project[]) => void]: it is run for its
    effect on what lies outside the registry (for the program, the page).
    [W] is the type of that outside; a callback that returns normally and
    does not call back into the registry is a function from the snapshot it
    is handed to a change of [W].  The projects reach it by value:
    [slice()] copies the array and not the [Project] objects, so in the
    program an array kept from an earlier notification shows a later
    [moveProject]; the listeners of the program replace what they kept on
    every notification.

    [Math.random()] is the one input of the registry that is not an argument
    of a method: [addProject] takes the number it returned as [random]. *)

Section Registry.

Variable W : Type.

Definition Listener : Type := list Project -> W -> W.

Record ProjectState := new_ProjectState {
  projects : list Project;
  listeners : list Listener
}.

(** [getInstance]: the instance held in the static field if there is one,
    otherwise a new empty registry, which the field holds from then on.
    The result comes with the field as the call leaves it. *)
Definition getInstance (instance : option ProjectState)
  : ProjectState * option ProjectState :=
  match instance with
  | Some this => (this, instance)
  | None =>
      let this := new_ProjectState [] [] in
      (this, Some this)
  end.

Definition addListener (listenerFn : Listener) (this : ProjectState)
  : ProjectState :=
  new_ProjectState (projects this) (listeners this ++ [listenerFn]).

(** The loop of [updateListeners]: each listener in turn is called with a
    copy of the array, [this.projects.slice()]. *)
Fixpoint callListeners (fns : list Listener) (items : list Project) (w : W) : W :=
  match fns with
  | [] => w
  | listenerFn :: rest => callListeners rest items (listenerFn items w)
  end.

Definition updateListeners (this : ProjectState) (w : W) : W :=
  callListeners (listeners this) (projects this) w.

Definition addProject (random : JS.number)
    (title description : string) (numOfPeople : JS.number)
    (this : ProjectState) (w : W) : ProjectState * W :=
  let newProject :=
    new_Project (JS.toString random) title description numOfPeople Active in
  let this' := new_ProjectState (projects this ++ [newProject]) (listeners this) in
  (this', updateListeners this' w).

(** The array after [project.status = newStatus] on the object that
    [find(prj => prj.id === projectId)] returned: the first element with
    that id.  Every element of the array is an object of its own (each
    comes from one [new Project] in [addProject]), so no other element
    changes with it. *)
Fixpoint assignStatus (projectId : string) (newStatus : ProjectStatus)
    (items : list Project) : list Project :=
  match items with
  | [] => []
  | prj :: rest =>
      if String.eqb (id prj) projectId
      then set_status prj newStatus :: rest
      else prj :: assignStatus projectId newStatus rest
  end.

Definition moveProject (projectId : string) (newStatus : ProjectStatus)
    (this : ProjectState) (w : W) : ProjectState * W :=
  match find (fun prj => String.eqb (id prj) projectId) (projects this) with
  | Some project =>
      if negb (ProjectStatus_eqb (status project) newStatus) then
        let this' :=
          new_ProjectState (assignStatus projectId newStatus (projects this))
                           (listeners this) in
        (this', updateListeners this' w)
      else (this, w)
  | None => (this, w)
  end.

(** A call of one of the three public methods, and a run of such calls. *)
Inductive Call :=
| CallAddListener (listenerFn : Listener)
| CallAddProject (random : JS.number) (title description : string)
                 (numOfPeople : JS.number)
| CallMoveProject (projectId : string) (newStatus : ProjectStatus).

Definition call (c : Call) (s : ProjectState * W) : ProjectState * W :=
  match c with
  | CallAddListener listenerFn => (addListener listenerFn (fst s), snd s)
  | CallAddProject random title description numOfPeople =>
      addProject random title description numOfPeople (fst s) (snd s)
  | CallMoveProject projectId newStatus =>
      moveProject projectId newStatus (fst s) (snd s)
  end.

Definition run (calls : list Call) (s : ProjectState * W) : ProjectState * W :=
  fold_left (fun s c => call c s) calls s.

End Registry.

Arguments new_ProjectState {W} _ _.
Arguments projects {W} _.
Arguments listeners {W} _.
Arguments getInstance {W} _.
Arguments addListener {W} _ _.
Arguments callListeners {W} _ _ _.
Arguments updateListeners {W} _ _.
Arguments addProject {W} _ _ _ _ _ _.
Arguments assignStatus _ _ _ : clear implicits.
Arguments moveProject {W} _ _ _ _.
Arguments CallAddListener {W} _.
Arguments CallAddProject {W} _ _ _ _.
Arguments CallMoveProject {W} _ _.
Arguments call {W} _ _.
Arguments run {W} _ _.

(* ================================================================== *)
(** * The page: the two columns and the form *)
(* ================================================================== *)

Inductive ListType := active | finished.

(** What the program reads and writes outside the registry: the [value] of
    the three input elements, the [assignedProjects] of the two
    [ProjectList]s ([aPL] and [fPL]; [renderProjects] draws exactly these),
    and the messages shown with [alert]. *)
Record Page := new_Page {
  titleInputElem : string;
  descriptionElem : string;
  peopleInputElem : string;
  aPL : list Project;
  fPL : list Project;
  alerts : list string
}.

(** ** [class ProjectList] *)

(** The filter of the listener of [ProjectList.configure]. *)
Definition relevantProjects (type : ListType) (projects : list Project)
  : list Project :=
  filter (fun pr =>
            match type with
            | active => ProjectStatus_eqb (status pr) Active
            | finished => ProjectStatus_eqb (status pr) Finished
            end) projects.

Definition assignedProjects (type : ListType) (pg : Page) : list Project :=
  match type with
  | active => aPL pg
  | finished => fPL pg
  end.

Definition set_assignedProjects (type : ListType) (items : list Project)
    (pg : Page) : Page :=
  match type with
  | active =>
      new_Page (titleInputElem pg) (descriptionElem pg) (peopleInputElem pg)
               items (fPL pg) (alerts pg)
  | finished =>
      new_Page (titleInputElem pg) (descriptionElem pg) (peopleInputElem pg)
               (aPL pg) items (alerts pg)
  end.

(** The listener a [ProjectList] subscribes in [configure]: it keeps the
    projects of its own status, from which [renderProjects] then rebuilds
    the list on screen. *)
Definition ProjectList_listener (type : ListType) : Listener Page :=
  fun projects pg =>
    let relevant := relevantProjects type projects in
    set_assignedProjects type relevant pg.

(** [drop]: the id is read from the drag payload. *)
Definition drop (type : ListType) (prjId : string)
    (projectState : ProjectState Page) (pg : Page) : ProjectState Page * Page :=
  moveProject prjId
              (match type with active => Active | finished => Finished end)
              projectState pg.

(** ** [validate] *)

Inductive Value :=
| Str (s : string)
| Num (n : JS.number).

Record Validatable := new_Validatable {
  value : Value;
  required : option bool;
  minLength : option JS.number;
  maxLength : option JS.number;
  min : option JS.number;
  max : option JS.number
}.

(** [value.toString()]. *)
Definition Value_toString (v : Value) : string :=
  match v with
  | Str s => s
  | Num n => JS.toString n
  end.

Definition validate (validatableInput : Validatable) : bool :=
  let isValid := true in
  let isValid :=
    match required validatableInput with
    | Some true =>
        isValid &&
        negb (String.length (JS.trim (Value_toString (value validatableInput)))
              =? 0)%nat
    | _ => isValid
    end in
  let isValid :=
    match minLength validatableInput, value validatableInput with
    | Some minLength, Str s =>
        isValid && JS.ge (JS.of_nat (String.length s)) minLength
    | _, _ => isValid
    end in
  let isValid :=
    match maxLength validatableInput, value validatableInput with
    | Some maxLength, Str s =>
        isValid && JS.le (JS.of_nat (String.length s)) maxLength
    | _, _ => isValid
    end in
  let isValid :=
    match min validatableInput, value validatableInput with
    | Some min, Num n => isValid && JS.ge n min
    | _, _ => isValid
    end in
  let isValid :=
    match max validatableInput, value validatableInput with
    | Some max, Num n => isValid && JS.le n max
    | _, _ => isValid
    end in
  isValid.

(** ** [class ProjectInput] *)

Definition alert (message : string) (pg : Page) : Page :=
  new_Page (titleInputElem pg) (descriptionElem pg) (peopleInputElem pg)
           (aPL pg) (fPL pg) (alerts pg ++ [message]).

Definition gatherUserInput (pg : Page)
  : option (string * string * JS.number) * Page :=
  let enteredTitle := JS.trim (titleInputElem pg) in
  let enteredDescription := JS.trim (descriptionElem pg) in
  let enteredPeople := JS.trim (peopleInputElem pg) in
  let titleValidateable :=
    new_Validatable (Str enteredTitle) (Some true) None None None None in
  let descriptionValidateable :=
    new_Validatable (Str enteredDescription) (Some true)
                    (Some (JS.of_Z 5)) None None None in
  let peopleValidateable :=
    new_Validatable (Num (JS.toNumber enteredPeople)) (Some true)
                    None None (Some (JS.of_Z 1)) (Some (JS.of_Z 5)) in
  if negb (validate titleValidateable)
     || negb (validate descriptionValidateable)
     || negb (validate peopleValidateable)
  then (None, alert "Invalid input, please try again!" pg)
  else (Some (enteredTitle, enteredDescription, JS.toNumber enteredPeople), pg).

Definition clearInput (pg : Page) : Page :=
  new_Page "" "" "" (aPL pg) (fPL pg) (alerts pg).

(** The listener of the form's [submit] event.  [random] is what
    [Math.random()] returns if [addProject] gets called. *)
Definition submit (random : JS.number)
    (projectState : ProjectState Page) (pg : Page) : ProjectState Page * Page :=
  match gatherUserInput pg with
  | (Some (title, desc, people), pg1) =>
      let '(projectState', pg2) :=
        addProject random title desc people projectState pg1 in
      (projectState', clearInput pg2)
  | (None, pg1) => (projectState, pg1)
  end.

(** The program at start-up: [new ProjectInput()], then
    [new ProjectList('active')] and [new ProjectList('finished')], each of
    which subscribes its listener to the one registry. *)
Definition startup : ProjectState Page :=
  let projectState := fst (getInstance None) in
  addListener (ProjectList_listener finished)
    (addListener (ProjectList_listener active) projectState).

(* ================================================================== *)
(** * Observing notifications *)
(* ================================================================== *)

(** To see which callbacks a call of the registry runs, each listener is
    wrapped so that it also appends its position in the subscriber list and
    the snapshot it was handed to a log kept next to [W]. *)

Definition Log : Type := list (nat * list Project).

Definition traced {W : Type} (i : nat) (listenerFn : Listener W)
  : Listener (W * Log) :=
  fun items s => (listenerFn items (fst s), snd s ++ [(i, items)]).

Fixpoint tracedFrom {W : Type} (i : nat) (fns : list (Listener W))
  : list (Listener (W * Log)) :=
  match fns with
  | [] => []
  | listenerFn :: rest => traced i listenerFn :: tracedFrom (S i) rest
  end.

(** One round of notification: every listener once, in the order of the
    subscriber list, each with [snapshot]. *)
Definition round (n : nat) (snapshot : list Project) : Log :=
  map (fun i => (i, snapshot)) (seq 0 n).

(** The column that shows the projects of a status. *)
Definition listOf (s : ProjectStatus) : ListType :=
  match s with
  | Active => active
  | Finished => finished
  end.

(* ================================================================== *)
(** * Runs of calls *)
(* ================================================================== *)

(** The numbers [Math.random()] returned in a run, one per [addProject]. *)
Definition randoms {W : Type} (calls : list (Call W)) : list JS.number :=
  flat_map (fun c => match c with
                     | CallAddProject random _ _ _ => [random]
                     | _ => []
                     end) calls.

(** The arguments of one [addProject] call, with the number [Math.random()]
    returned in it: [(random, title, description, numOfPeople)]. *)
Definition AddArgs : Type := JS.number * string * string * JS.number.

Definition addCall {W : Type} (a : AddArgs) : Call W :=
  let '(random, title, description, numOfPeople) := a in
  CallAddProject random title description numOfPeople.

(** The project [addProject] builds from them. *)
Definition created (a : AddArgs) : Project :=
  let '(random, title, description, numOfPeople) := a in
  new_Project (JS.toString random) title description numOfPeople Active.

Definition drawn (a : AddArgs) : string :=
  let '(random, _, _, _) := a in JS.toString random.

(** The message of [gatherUserInput]. *)
Definition notice : string := "Invalid input, please try again!".

(** ** Sample data: the end-to-end scenario of the specification *)

Definition blank : Page := new_Page "" "" "" [] [] [].

(** A value [Math.random()] can return: 0.5, whose string is ["0.5"]. *)
Definition half : JS.number := JS.toNumber "0.5".

Definition buildCLI (s : ProjectStatus) : Project :=
  new_Project "0.5" "Build CLI" "Write a tool" (JS.of_Z 3) s.

Definition writeDocs (s : ProjectStatus) : Project :=
  new_Project "0.25" "Write docs" "Explain the tool" (JS.of_Z 2) s.

(* ================================================================== *)
(** * The page in use: what the user does *)
(* ================================================================== *)

(** The user fills the three fields, submits the form, or drops a dragged
    card on one of the two lists; the payload of a drop is whatever text the
    drag carries ([dragStart] of a card puts the id of its project there). *)
Inductive Event :=
| Typing (title description people : string)
| Submit (random : JS.number)
| Drop (type : ListType) (prjId : string).

Definition typing (title description people : string) (pg : Page) : Page :=
  new_Page title description people (aPL pg) (fPL pg) (alerts pg).

Definition handle (e : Event) (s : ProjectState Page * Page)
  : ProjectState Page * Page :=
  match e with
  | Typing title description people =>
      (fst s, typing title description people (snd s))
  | Submit random => submit random (fst s) (snd s)
  | Drop type prjId => drop type prjId (fst s) (snd s)
  end.

Definition handleAll (events : list Event) (s : ProjectState Page * Page)
  : ProjectState Page * Page :=
  fold_left (fun s e => handle e s) events s.

(** The number of submissions among the events. *)
Definition submissions (events : list Event) : nat :=
  List.length (filter (fun e => match e with Submit _ => true | _ => false end)
                      events).

(** The two columns hold the two filtered views of the registry, and the
    subscribers are the two lists of the program. *)
Definition inSync (s : ProjectState Page * Page) : Prop :=
  listeners (fst s) = listeners startup /\
  aPL (snd s) = relevantProjects active (projects (fst s)) /\
  fPL (snd s) = relevantProjects finished (projects (fst s)).

(** A string of white space only (the empty string is one). *)
Fixpoint onlyWhiteSpace (s : string) : bool :=
  match s with
  | EmptyString => true
  | String c r => JS.isWhiteSpace c && onlyWhiteSpace r
  end.

(** The status a drop on a list asks for. *)
Definition statusOf (type : ListType) : ProjectStatus :=
  match type with
  | active => Active
  | finished => Finished
  end.

(** A project without its status: the fields no method assigns to. *)
Definition details (p : Project) : string * string * string * JS.number :=
  (id p, title p, description p, people p).

(** The projects the [addProject] calls of a run create, and the listeners
    its [addListener] calls subscribe, in call order. *)
Definition added {W : Type} (calls : list (Call W)) : list Project :=
  flat_map (fun c => match c with
                     | CallAddProject random title description numOfPeople =>
                         [new_Project (JS.toString random) title description
                                      numOfPeople Active]
                     | _ => []
                     end) calls.

Definition subscribed {W : Type} (calls : list (Call W)) : list (Listener W) :=
  flat_map (fun c => match c with
                     | CallAddListener listenerFn => [listenerFn]
                     | _ => []
                     end) calls.

(** The run holds a [moveProject] call for this id. *)
Definition movesId {W : Type} (projectId : string) (calls : list (Call W)) : Prop :=
  exists newStatus, In (CallMoveProject projectId newStatus) calls.

(* ================================================================== *)
(** * Facts about the lookup and the assignment of [moveProject] *)
(* ================================================================== *)

Lemma ProjectStatus_eqb_eq (a b : ProjectStatus) :
  ProjectStatus_eqb a b = true <-> a = b.
Proof. destruct a, b; simpl; split; congruence. Qed.

Lemma ProjectStatus_eqb_neq (a b : ProjectStatus) :
  ProjectStatus_eqb a b = false <-> a <> b.
Proof. destruct a, b; simpl; split; congruence. Qed.

Lemma set_status_same (project : Project) :
  set_status project (status project) = project.
Proof. destruct project; reflexivity. Qed.

Section Lookup.

Variable projectId : string.

Local Abbreviation hasId := (fun prj : Project => String.eqb (id prj) projectId).

(** The project [find] returns is the first of the array with that id. *)
Lemma find_first (items : list Project) (project : Project) :
  find hasId items = Some project ->
  exists before after,
    items = before ++ project :: after /\
    (forall prj, In prj before -> id prj <> projectId) /\
    id project = projectId.
Proof.
  induction items as [|prj rest IH]; simpl; [discriminate|].
  destruct (String.eqb (id prj) projectId) eqn:E.
  - intros [= ->]. exists [], rest. repeat split.
    + intros ? [].
    + now apply String.eqb_eq.
  - intros H. destruct (IH H) as (before & after & -> & Hb & Hid).
    exists (prj :: before), after. repeat split; trivial.
    intros q [<-|Hq]; [now apply String.eqb_neq | now apply Hb].
Qed.

Lemma first_find (before after : list Project) (project : Project) :
  (forall prj, In prj before -> id prj <> projectId) ->
  id project = projectId ->
  find hasId (before ++ project :: after) = Some project.
Proof.
  intros Hb Hid. induction before as [|prj rest IH]; simpl.
  - now rewrite Hid, String.eqb_refl.
  - assert (E : String.eqb (id prj) projectId = false)
      by (apply String.eqb_neq, Hb; now left).
    rewrite E. apply IH. intros q Hq. apply Hb. now right.
Qed.

Lemma find_absent (items : list Project) :
  find hasId items = None <-> (forall prj, In prj items -> id prj <> projectId).
Proof.
  split.
  - intros H prj Hin. apply String.eqb_neq.
    exact (find_none hasId items H prj Hin).
  - intros H. induction items as [|prj rest IH]; simpl; trivial.
    assert (E : String.eqb (id prj) projectId = false)
      by (apply String.eqb_neq, H; now left).
    rewrite E. apply IH. intros q Hq. apply H. now right.
Qed.

(** The assignment rewrites that first project and nothing else. *)
Lemma assignStatus_first (newStatus : ProjectStatus)
    (before after : list Project) (project : Project) :
  (forall prj, In prj before -> id prj <> projectId) ->
  id project = projectId ->
  assignStatus projectId newStatus (before ++ project :: after)
  = before ++ set_status project newStatus :: after.
Proof.
  intros Hb Hid. induction before as [|prj rest IH]; simpl.
  - now rewrite Hid, String.eqb_refl.
  - assert (E : String.eqb (id prj) projectId = false)
      by (apply String.eqb_neq, Hb; now left).
    rewrite E. f_equal. apply IH. intros q Hq. apply Hb. now right.
Qed.

End Lookup.

(** What [moveProject] returns, by cases on the first project with the id. *)
Lemma moveProject_first {W : Type} (this : ProjectState W) (w : W)
    (projectId : string) (newStatus : ProjectStatus)
    (before after : list Project) (project : Project) :
  projects this = before ++ project :: after ->
  (forall prj, In prj before -> id prj <> projectId) ->
  id project = projectId ->
  moveProject projectId newStatus this w =
  if ProjectStatus_eqb (status project) newStatus
  then (this, w)
  else
    let snapshot := before ++ set_status project newStatus :: after in
    (new_ProjectState snapshot (listeners this),
     callListeners (listeners this) snapshot w).
Proof.
  intros Hsplit Hb Hid. unfold moveProject, updateListeners.
  rewrite Hsplit, (first_find projectId before after project Hb Hid).
  destruct (ProjectStatus_eqb (status project) newStatus); simpl; trivial.
  now rewrite (assignStatus_first projectId newStatus before after project Hb Hid).
Qed.

Lemma moveProject_absent {W : Type} (this : ProjectState W) (w : W)
    (projectId : string) (newStatus : ProjectStatus) :
  (forall prj, In prj (projects this) -> id prj <> projectId) ->
  moveProject projectId newStatus this w = (this, w).
Proof.
  intros H. unfold moveProject.
  now rewrite (proj2 (find_absent projectId (projects this)) H).
Qed.

(** The loop of [updateListeners] on traced listeners: the wrapped
    callbacks act on [W] as the bare ones do, and the log grows by one
    entry per listener, in order. *)
Lemma callListeners_traced {W : Type} (fns : list (Listener W))
    (i : nat) (items : list Project) (w : W) (log : Log) :
  callListeners (tracedFrom i fns) items (w, log)
  = (callListeners fns items w,
     log ++ map (fun j => (j, items)) (seq i (List.length fns))).
Proof.
  revert i w log. induction fns as [|f rest IH]; intros i w log; simpl.
  - now rewrite app_nil_r.
  - unfold traced at 1. simpl. rewrite IH, <- app_assoc. reflexivity.
Qed.

Lemma callListeners_app {W : Type} (fns1 fns2 : list (Listener W))
    (items : list Project) (w : W) :
  callListeners (fns1 ++ fns2) items w
  = callListeners fns2 items (callListeners fns1 items w).
Proof.
  revert w. induction fns1 as [|f rest IH]; intros w; simpl; trivial.
Qed.

Lemma callListeners_fold {W : Type} (fns : list (Listener W))
    (items : list Project) (w : W) :
  callListeners fns items w
  = fold_left (fun w listenerFn => listenerFn items w) fns w.
Proof.
  revert w. induction fns as [|f rest IH]; intros w; simpl; trivial.
Qed.

(* ================================================================== *)
(** * [moveProject] *)
(* ================================================================== *)

(** C3.  [moveProject(id, S)] is a silent no-op when no project has the id
    and when the project the lookup finds under the id already has status
    [S]: in both cases the call returns with the registry (project sequence
    and subscriber list) and everything outside it exactly as they were.
    This holds whatever the listeners are; with listeners that log their
    calls the log is left as it was, so no callback was run.  The two cases
    give the same result, so the caller cannot tell them apart. *)
Theorem moveProject_silent_noop (W : Type) (this : ProjectState W) (w : W)
    (projectId : string) (S : ProjectStatus) :
  (forall prj, In prj (projects this) -> id prj <> projectId) \/
  (exists project,
      find (fun prj => String.eqb (id prj) projectId) (projects this)
      = Some project /\ status project = S) ->
  moveProject projectId S this w = (this, w) /\
  (forall log : Log,
      let logged :=
        new_ProjectState (projects this) (tracedFrom 0 (listeners this)) in
      moveProject projectId S logged (w, log) = (logged, (w, log))).
Proof.
  intros [Habsent | (project & Hfind & Hst)].
  - split; [|intros log logged]; now apply moveProject_absent.
  - split; [|intros log logged]; unfold moveProject; simpl; rewrite Hfind;
      now rewrite (proj2 (ProjectStatus_eqb_eq _ _) Hst).
Qed.


(** C5.  A successful [moveProject(id, newStatus)] (a project is found under
    the id and its status differs from [newStatus]) changes the status
    field of that one project and nothing else: at its position the
    sequence now holds the same project with the new status, with id,
    title, description and people count as before; at every other position
    the sequence holds what it held; the length, the order and the
    subscriber list are unchanged. *)
Theorem moveProject_changes_status_only (W : Type) (this : ProjectState W)
    (w : W) (projectId : string) (newStatus : ProjectStatus) (project : Project) :
  find (fun prj => String.eqb (id prj) projectId) (projects this) = Some project ->
  status project <> newStatus ->
  let this' := fst (moveProject projectId newStatus this w) in
  List.length (projects this') = List.length (projects this) /\
  listeners this' = listeners this /\
  (exists i moved,
      nth_error (projects this) i = Some project /\
      nth_error (projects this') i = Some moved /\
      status moved = newStatus /\
      id moved = id project /\
      title moved = title project /\
      description moved = description project /\
      people moved = people project /\
      forall j, j <> i ->
        nth_error (projects this') j = nth_error (projects this) j) /\
  map id (projects this') = map id (projects this) /\
  map title (projects this') = map title (projects this) /\
  map description (projects this') = map description (projects this) /\
  map people (projects this') = map people (projects this).
Proof.
  intros Hfind Hst this'.
  destruct (find_first projectId _ _ Hfind) as (before & after & Hsplit & Hb & Hid).
  assert (E : this' = new_ProjectState
                        (before ++ set_status project newStatus :: after)
                        (listeners this)).
  { unfold this'. rewrite (moveProject_first this w _ newStatus _ _ _ Hsplit Hb Hid).
    now rewrite (proj2 (ProjectStatus_eqb_neq _ _) Hst). }
  rewrite E, Hsplit. simpl.
  repeat split.
  - rewrite !length_app. reflexivity.
  - exists (List.length before), (set_status project newStatus).
    repeat split.
    + now rewrite nth_error_app2, Nat.sub_diag by lia.
    + now rewrite nth_error_app2, Nat.sub_diag by lia.
    + intros j Hj. destruct (Nat.lt_ge_cases j (List.length before)) as [Hlt|Hge].
      * now rewrite !nth_error_app1 by assumption.
      * rewrite !nth_error_app2 by assumption.
        destruct (j - List.length before)%nat as [|k] eqn:Ek; [lia | reflexivity].
  - now rewrite !map_app.
  - now rewrite !map_app.
  - now rewrite !map_app.
  - now rewrite !map_app.
Qed.

(** C10.  [moveProject] writes to at most one project per call.  When
    several projects carry the id, the first of them in insertion order is
    the one examined.  After the call that project has status [newStatus]
    and its id, title, description and people count as before, so the
    sequence has changed exactly when its status differed; all that comes
    after it in the sequence, projects with the same id included, is left
    as it was, as is all that comes before it. *)
Theorem moveProject_first_match_only (W : Type) (this : ProjectState W) (w : W)
    (projectId : string) (newStatus : ProjectStatus) :
  (forall before project after,
      projects this = before ++ project :: after ->
      (forall prj, In prj before -> id prj <> projectId) ->
      id project = projectId ->
      let result := projects (fst (moveProject projectId newStatus this w)) in
      let updated :=
        new_Project (id project) (title project) (description project)
                    (people project) newStatus in
      result = before ++ updated :: after /\
      nth_error result (List.length before) = Some updated /\
      status updated = newStatus /\
      (forall j, nth_error result (S (List.length before + j))
                 = nth_error after j) /\
      (forall j, (j < List.length before)%nat ->
                 nth_error result j = nth_error before j) /\
      (status project <> newStatus -> result <> projects this) /\
      (status project = newStatus -> result = projects this)) /\
  (exists i, forall j, j <> i ->
      nth_error (projects (fst (moveProject projectId newStatus this w))) j
      = nth_error (projects this) j).
Proof.
  assert (Hfirst : forall before project after,
      projects this = before ++ project :: after ->
      (forall prj, In prj before -> id prj <> projectId) ->
      id project = projectId ->
      projects (fst (moveProject projectId newStatus this w))
      = before ++ new_Project (id project) (title project) (description project)
                              (people project) newStatus :: after).
  { intros before project after Hsplit Hb Hid.
    rewrite (moveProject_first this w _ newStatus _ _ _ Hsplit Hb Hid).
    destruct (ProjectStatus_eqb (status project) newStatus) eqn:E; simpl; trivial.
    apply ProjectStatus_eqb_eq in E. rewrite Hsplit, <- E.
    now destruct project. }
  split.
  - intros before project after Hsplit Hb Hid result updated.
    assert (E : result = before ++ updated :: after)
      by (apply Hfirst; assumption).
    rewrite E, Hsplit. repeat split.
    + now rewrite nth_error_app2, Nat.sub_diag by lia.
    + intros j. rewrite nth_error_app2 by lia.
      now replace (S (List.length before + j) - List.length before)%nat
        with (S j) by lia.
    + intros j Hj. now rewrite nth_error_app1.
    + intros Hst Heq. apply app_inv_head in Heq.
      injection Heq as Heq. apply Hst. now rewrite <- Heq.
    + intros Hst. unfold updated. rewrite <- Hst. now destruct project.
  - destruct (find (fun prj => String.eqb (id prj) projectId) (projects this))
      as [project|] eqn:Hfind.
    + destruct (find_first projectId _ _ Hfind)
        as (before & after & Hsplit & Hb & Hid).
      exists (List.length before). intros j Hj.
      rewrite (Hfirst _ _ _ Hsplit Hb Hid), Hsplit.
      destruct (Nat.lt_ge_cases j (List.length before)) as [Hlt|Hge].
      * now rewrite !nth_error_app1 by assumption.
      * rewrite !nth_error_app2 by assumption.
        destruct (j - List.length before)%nat as [|k] eqn:Ek; [lia | reflexivity].
    + exists O. intros j _. unfold moveProject. now rewrite Hfind.
Qed.

(** C2, as it holds.  Let [project] be the first project in the sequence
    with id [projectId] (the only one when the ids are pairwise distinct),
    with a status other than [otherStatus].  Then
    [moveProject(projectId, otherStatus)] fires exactly one round of
    notification; the snapshot delivered is the sequence with that project
    now at status [otherStatus]; in the filtered view of [otherStatus] the
    project appears, at its place in insertion order; from the filtered
    view of its previous status its entry is gone, and when the ids are
    pairwise distinct no project with that id is left there. *)
Theorem moveProject_moves_the_first_match (W : Type) (fns : list (Listener W))
    (w : W) (log : Log) (projectId : string) (otherStatus : ProjectStatus)
    (before after : list Project) (project : Project) :
  (forall prj, In prj before -> id prj <> projectId) ->
  id project = projectId ->
  status project <> otherStatus ->
  let items := before ++ project :: after in
  let this := new_ProjectState items (tracedFrom 0 fns) in
  let moved := set_status project otherStatus in
  let snapshot := before ++ moved :: after in
  let result := moveProject projectId otherStatus this (w, log) in
  let previous := listOf (status project) in
  let other := listOf otherStatus in
  projects (fst result) = snapshot /\
  snd (snd result) = log ++ round (List.length fns) snapshot /\
  fst (snd result) = callListeners fns snapshot w /\
  status moved = otherStatus /\
  relevantProjects other snapshot
  = relevantProjects other before ++ moved :: relevantProjects other after /\
  relevantProjects previous snapshot
  = relevantProjects previous before ++ relevantProjects previous after /\
  relevantProjects previous items
  = relevantProjects previous before ++ project :: relevantProjects previous after /\
  (NoDup (map id items) ->
   forall prj, In prj (relevantProjects previous snapshot) -> id prj <> projectId).
Proof.
  intros Hb Hid Hst items this moved snapshot result previous other.
  assert (E : result = (new_ProjectState snapshot (tracedFrom 0 fns),
                        (callListeners fns snapshot w,
                         log ++ round (List.length fns) snapshot))).
  { unfold result.
    rewrite (moveProject_first this (w, log) _ otherStatus before after project
               eq_refl Hb Hid).
    rewrite (proj2 (ProjectStatus_eqb_neq _ _) Hst). simpl.
    now rewrite callListeners_traced. }
  assert (Hm : forall type,
             relevantProjects type snapshot
             = relevantProjects type before
               ++ relevantProjects type [moved] ++ relevantProjects type after).
  { intros type. unfold snapshot, relevantProjects.
    change (moved :: after) with ([moved] ++ after).
    now rewrite !filter_app. }
  rewrite E. simpl. repeat split.
  - rewrite Hm. unfold other, moved. now destruct otherStatus.
  - rewrite Hm. unfold previous, moved.
    destruct (status project), otherStatus; simpl; congruence.
  - unfold items, relevantProjects. rewrite filter_app. simpl.
    unfold previous. now destruct (status project).
  - intros Hnodup prj Hin.
    assert (Hin' : In prj (before ++ after)).
    { rewrite Hm in Hin. unfold previous, moved in Hin.
      apply in_or_app.
      destruct (status project) eqn:Es, otherStatus; simpl in Hin;
        try congruence;
        apply in_app_or in Hin; unfold relevantProjects in Hin;
        destruct Hin as [Hin|Hin]; apply filter_In in Hin; tauto. }
    unfold items in Hnodup. rewrite map_app in Hnodup. simpl in Hnodup.
    apply NoDup_remove_2 in Hnodup. rewrite <- map_app in Hnodup.
    intros Heq. apply Hnodup. rewrite Hid, <- Heq. now apply in_map.
Qed.

(* ================================================================== *)
(** * [addProject] *)
(* ================================================================== *)

(** C6.  [addProject] returns for every argument whatever, the empty title
    and description and a zero or a negative people count among them: no
    argument is looked at, and the sequence grows at its end by one project
    with the arguments as given and status [Active], which the listeners
    are then told about.  The projects already there keep their places,
    the Active view gains the new project at its end and the Finished view
    is as before. *)
Theorem addProject_accepts_everything (W : Type) (this : ProjectState W) (w : W)
    (random : JS.number) :
  (forall title description numOfPeople,
      let newProject :=
        new_Project (JS.toString random) title description numOfPeople Active in
      let this' := fst (addProject random title description numOfPeople this w) in
      addProject random title description numOfPeople this w
      = (new_ProjectState (projects this ++ [newProject]) (listeners this),
         callListeners (listeners this) (projects this ++ [newProject]) w) /\
      List.length (projects this') = S (List.length (projects this)) /\
      nth_error (projects this') (List.length (projects this)) = Some newProject /\
      relevantProjects active (projects this')
      = relevantProjects active (projects this) ++ [newProject] /\
      relevantProjects finished (projects this')
      = relevantProjects finished (projects this)) /\
  projects (fst (addProject random "" "" (JS.of_Z 0) this w))
  = projects this ++ [new_Project (JS.toString random) "" "" (JS.of_Z 0) Active] /\
  projects (fst (addProject random "" "" (JS.of_Z (-1)) this w))
  = projects this ++ [new_Project (JS.toString random) "" "" (JS.of_Z (-1)) Active].
Proof.
  split; [|split; reflexivity].
  intros title description numOfPeople newProject this'.
  assert (E : projects this' = projects this ++ [newProject]) by reflexivity.
  rewrite E. repeat split.
  - rewrite length_app. simpl. lia.
  - now rewrite nth_error_app2, Nat.sub_diag by lia.
  - unfold relevantProjects. now rewrite filter_app.
  - unfold relevantProjects. rewrite filter_app. simpl. apply app_nil_r.
Qed.

(* ================================================================== *)
(** * Notification *)
(* ================================================================== *)

(** C7.  On [addProject], and on [moveProject] when it finds the project
    with another status, every subscribed callback runs exactly once, in
    the order of subscription, each handed the whole project sequence as it
    is after the change; all of it has happened in the state the call
    returns.  With the listeners traced, the log grows by exactly one
    [round]; outside the log the callbacks have acted one after the other
    in subscription order. *)
Theorem notification_reaches_every_listener_in_order (W : Type)
    (fns : list (Listener W)) (items : list Project) (w : W) (log : Log) :
  let this := new_ProjectState items (tracedFrom 0 fns) in
  let notified snapshot :=
    (new_ProjectState snapshot (tracedFrom 0 fns),
     (fold_left (fun w listenerFn => listenerFn snapshot w) fns w,
      log ++ round (List.length fns) snapshot)) in
  (forall random title description numOfPeople,
      addProject random title description numOfPeople this (w, log)
      = notified
          (items ++ [new_Project (JS.toString random) title description
                                 numOfPeople Active])) /\
  (forall projectId newStatus before project after,
      items = before ++ project :: after ->
      (forall prj, In prj before -> id prj <> projectId) ->
      id project = projectId ->
      status project <> newStatus ->
      moveProject projectId newStatus this (w, log)
      = notified (before ++ set_status project newStatus :: after)).
Proof.
  intros this notified. split.
  - intros. unfold addProject, updateListeners, notified, round. simpl.
    now rewrite callListeners_traced, callListeners_fold.
  - intros projectId newStatus before project after Hsplit Hb Hid Hst.
    rewrite (moveProject_first this (w, log) _ newStatus _ _ _ Hsplit Hb Hid).
    rewrite (proj2 (ProjectStatus_eqb_neq _ _) Hst). simpl.
    unfold notified, round.
    now rewrite callListeners_traced, callListeners_fold.
Qed.

(** C8.  [addListener] does not deduplicate: after subscribing the same
    callback twice the subscriber list ends with two entries for it, and
    every later notification ([addProject], or a [moveProject] that finds
    the project with another status) runs it twice on the snapshot, after
    the listeners subscribed before it. *)
Theorem addListener_twice_runs_twice (W : Type) (listenerFn : Listener W)
    (this : ProjectState W) (w : W) :
  let twice := addListener listenerFn (addListener listenerFn this) in
  projects twice = projects this /\
  listeners twice = listeners this ++ [listenerFn; listenerFn] /\
  (forall random title description numOfPeople,
      let snapshot :=
        projects this ++ [new_Project (JS.toString random) title description
                                      numOfPeople Active] in
      snd (addProject random title description numOfPeople twice w)
      = listenerFn snapshot
          (listenerFn snapshot (callListeners (listeners this) snapshot w))) /\
  (forall projectId newStatus before project after,
      projects this = before ++ project :: after ->
      (forall prj, In prj before -> id prj <> projectId) ->
      id project = projectId ->
      status project <> newStatus ->
      let snapshot := before ++ set_status project newStatus :: after in
      snd (moveProject projectId newStatus twice w)
      = listenerFn snapshot
          (listenerFn snapshot (callListeners (listeners this) snapshot w))).
Proof.
  intros twice.
  assert (Hl : listeners twice = listeners this ++ [listenerFn; listenerFn])
    by (unfold twice, addListener; simpl; now rewrite <- app_assoc).
  repeat split; trivial.
  - intros. unfold addProject, updateListeners. simpl.
    now rewrite <- app_assoc, callListeners_app.
  - intros projectId newStatus before project after Hsplit Hb Hid Hst snapshot.
    rewrite (moveProject_first twice w _ newStatus before after project Hsplit Hb Hid).
    rewrite (proj2 (ProjectStatus_eqb_neq _ _) Hst). simpl.
    now rewrite <- app_assoc, callListeners_app.
Qed.


(* ================================================================== *)
(** * Runs of calls: the ids in the sequence *)
(* ================================================================== *)

Lemma assignStatus_ids (projectId : string) (newStatus : ProjectStatus)
    (items : list Project) :
  map id (assignStatus projectId newStatus items) = map id items.
Proof.
  induction items as [|prj rest IH]; simpl; trivial.
  destruct (String.eqb (id prj) projectId); simpl; congruence.
Qed.

Lemma call_ids {W : Type} (c : Call W) (s : ProjectState W * W) :
  map id (projects (fst (call c s)))
  = map id (projects (fst s)) ++ map JS.toString (randoms [c]).
Proof.
  destruct c as [f | random t d n | projectId newStatus]; simpl.
  - now rewrite app_nil_r.
  - now rewrite map_app.
  - rewrite app_nil_r. unfold moveProject.
    destruct (find _ (projects (fst s))) as [project|]; trivial.
    destruct (negb _); trivial. simpl. apply assignStatus_ids.
Qed.

Lemma run_ids {W : Type} (calls : list (Call W)) (s : ProjectState W * W) :
  map id (projects (fst (run calls s)))
  = map id (projects (fst s)) ++ map JS.toString (randoms calls).
Proof.
  revert s. induction calls as [|c rest IH]; intros s.
  - simpl. now rewrite app_nil_r.
  - change (run (c :: rest) s) with (run rest (call c s)).
    rewrite IH, call_ids.
    assert (E : randoms (c :: rest) = randoms [c] ++ randoms rest)
      by (simpl; now rewrite app_nil_r).
    now rewrite E, map_app, app_assoc.
Qed.

(** C4, as it holds.  The registry takes the id of a new project from
    [Math.random().toString()] and compares it with nothing.  In every
    state reached from the empty registry by calls of [addListener],
    [addProject] and [moveProject], the ids in the sequence are, in order,
    the strings of the numbers [Math.random()] returned to the [addProject]
    calls so far; [moveProject] changes none of them.  So when those
    strings are pairwise distinct, no two projects (at distinct positions
    of the sequence) share an id, and a new id is never one handed out
    before. *)
Theorem ids_unique_when_random_draws_differ (W : Type) (calls : list (Call W))
    (w : W) :
  let this := fst (run calls (fst (getInstance None), w)) in
  map id (projects this) = map JS.toString (randoms calls) /\
  (NoDup (map JS.toString (randoms calls)) ->
   NoDup (map id (projects this)) /\
   forall i j p q,
     nth_error (projects this) i = Some p ->
     nth_error (projects this) j = Some q ->
     id p = id q -> i = j).
Proof.
  intros this.
  assert (E : map id (projects this) = map JS.toString (randoms calls))
    by (unfold this; now rewrite run_ids).
  split; [exact E|]. intros Hnodup. rewrite <- E in Hnodup.
  split; [exact Hnodup|]. intros i j p q Hp Hq Heq.
  assert (Hi : nth_error (map id (projects this)) i = Some (id p))
    by (rewrite nth_error_map, Hp; reflexivity).
  assert (Hj : nth_error (map id (projects this)) j = Some (id p))
    by (rewrite nth_error_map, Hq, Heq; reflexivity).
  apply (proj1 (NoDup_nth_error _) Hnodup).
  - apply nth_error_Some. congruence.
  - congruence.
Qed.

(* ================================================================== *)
(** * Runs of [addProject] alone: the Active view *)
(* ================================================================== *)

Lemma run_app {W : Type} (calls1 calls2 : list (Call W)) (s : ProjectState W * W) :
  run (calls1 ++ calls2) s = run calls2 (run calls1 s).
Proof. unfold run. apply fold_left_app. Qed.

Lemma run_adds {W : Type} (args : list AddArgs) (s : ProjectState W * W) :
  projects (fst (run (map addCall args) s))
  = projects (fst s) ++ map created args /\
  listeners (fst (run (map addCall args) s)) = listeners (fst s).
Proof.
  revert s. induction args as [|a rest IH]; intros s.
  - simpl. now rewrite app_nil_r.
  - change (run (map addCall (a :: rest)) s)
      with (run (map addCall rest) (call (addCall a) s)).
    destruct (IH (call (addCall a) s)) as [-> ->].
    destruct a as [[[random t] d] n]. simpl.
    now rewrite <- app_assoc.
Qed.

Lemma created_all_active (args : list AddArgs) :
  relevantProjects active (map created args) = map created args /\
  relevantProjects finished (map created args) = [].
Proof.
  induction args as [|[[[random t] d] n] rest [IHa IHf]]; simpl; auto.
  unfold relevantProjects in *. simpl. now rewrite IHa.
Qed.

(** After a notification the two columns of the page hold the two filtered
    views of the snapshot. *)
Lemma columns_after_notification (snapshot : list Project) (pg : Page) :
  let pg' := callListeners (listeners startup) snapshot pg in
  aPL pg' = relevantProjects active snapshot /\
  fPL pg' = relevantProjects finished snapshot /\
  titleInputElem pg' = titleInputElem pg /\
  descriptionElem pg' = descriptionElem pg /\
  peopleInputElem pg' = peopleInputElem pg /\
  alerts pg' = alerts pg.
Proof. repeat split. Qed.

(** C1, as it holds.  After any [N] calls of [addProject] on a registry
    with no project yet (and no [moveProject]), the snapshot filtered to
    status [Active] has exactly [N] entries, in call order, each with the
    title, description and people count of its call and status [Active];
    its id is the string of the number [Math.random()] returned in that
    call, so the ids are pairwise distinct exactly when those strings are.
    On the page, once a call has been made, the active column holds this
    view and the finished column is empty. *)
Theorem active_view_after_adds (W : Type) (fns : list (Listener W)) (w : W)
    (args : list AddArgs) :
  let this := fst (run (map addCall args) (new_ProjectState [] fns, w)) in
  let view := relevantProjects active (projects this) in
  view = map created args /\
  List.length view = List.length args /\
  (forall i a, nth_error args i = Some a ->
     exists p, nth_error view i = Some p /\
       id p = drawn a /\
       title p = snd (fst (fst a)) /\
       description p = snd (fst a) /\
       people p = snd a /\
       status p = Active) /\
  (NoDup (map drawn args) <-> NoDup (map id view)) /\
  (forall pg, args <> [] ->
     let pg' := snd (run (map addCall args) (startup, pg)) in
     aPL pg' = map created args /\ fPL pg' = []).
Proof.
  intros this view.
  assert (E : view = map created args).
  { unfold view, this.
    rewrite (proj1 (run_adds args _)). simpl. apply created_all_active. }
  rewrite E. repeat split.
  - apply length_map.
  - intros i a Ha. exists (created a). rewrite nth_error_map, Ha.
    now destruct a as [[[random t] d] n].
  - intros H. rewrite map_map.
    erewrite map_ext; [exact H|]. now intros [[[random t] d] n].
  - intros H. rewrite map_map in H.
    erewrite map_ext; [exact H|]. now intros [[[random t] d] n].
  - destruct (exists_last H) as (front & a & ->).
    rewrite map_app, run_app.
    destruct (run_adds front (startup, pg)) as [Hp Hl].
    destruct (run (map addCall front) (startup, pg)) as [this0 pg0].
    simpl in Hp, Hl. destruct a as [[[random t] d] n]. simpl.
    unfold updateListeners. simpl. rewrite Hl, Hp.
    rewrite (proj1 (columns_after_notification _ pg0)).
    change (map created front ++ [new_Project (JS.toString random) t d n Active])
      with (map created front ++ map created [(random, t, d, n)]).
    rewrite <- map_app. apply created_all_active.
  - destruct (exists_last H) as (front & a & ->).
    rewrite map_app, run_app.
    destruct (run_adds front (startup, pg)) as [Hp Hl].
    destruct (run (map addCall front) (startup, pg)) as [this0 pg0].
    simpl in Hp, Hl. destruct a as [[[random t] d] n]. simpl.
    unfold updateListeners. simpl. rewrite Hl, Hp.
    rewrite (proj1 (proj2 (columns_after_notification _ pg0))).
    change (map created front ++ [new_Project (JS.toString random) t d n Active])
      with (map created front ++ map created [(random, t, d, n)]).
    rewrite <- map_app. apply created_all_active.
Qed.


(* ================================================================== *)
(** * The form boundary *)
(* ================================================================== *)

Lemma length_at_least_5 (n : nat) :
  JS.ge (JS.of_nat n) (JS.of_Z 5) = true -> (5 <= n)%nat.
Proof.
  do 5 (destruct n as [|n]; [vm_compute; discriminate|]).
  intros _. lia.
Qed.

Lemma between_1_and_5 (x : JS.number) :
  JS.ge x (JS.of_Z 1) = true -> JS.le x (JS.of_Z 5) = true ->
  exists m e, x = S754_finite false m e.
Proof.
  assert (E1 : JS.of_Z 1 = S754_finite false 4503599627370496 (-52))
    by (vm_compute; reflexivity).
  assert (E5 : JS.of_Z 5 = S754_finite false 5629499534213120 (-50))
    by (vm_compute; reflexivity).
  unfold JS.ge, JS.le. rewrite E1, E5.
  destruct x as [[|] | [|] | | [|] m e];
    try (intros H; discriminate H);
    try (intros _ H; discriminate H).
  intros _ _. now exists m, e.
Qed.

Lemma trimEnd_idempotent (s : string) :
  JS.trimEnd (JS.trimEnd s) = JS.trimEnd s.
Proof.
  induction s as [|c r IH]; simpl; trivial.
  destruct (JS.trimEnd r) as [|c' r'] eqn:E.
  - destruct (JS.isWhiteSpace c) eqn:Ec; simpl; trivial. now rewrite Ec.
  - remember (String c' r') as t eqn:Et. simpl. rewrite IH. now subst t.
Qed.

Lemma trimStart_head (s : string) :
  JS.trimStart s = EmptyString \/
  exists c r, JS.trimStart s = String c r /\ JS.isWhiteSpace c = false.
Proof.
  induction s as [|c r IH]; simpl; [now left|].
  destruct (JS.isWhiteSpace c) eqn:Ec; trivial.
  right. now exists c, r.
Qed.

(** What [trim] returns has no white space left at either end. *)
Lemma trim_idempotent (s : string) : JS.trim (JS.trim s) = JS.trim s.
Proof.
  unfold JS.trim.
  destruct (trimStart_head s) as [-> | (c & r & -> & Ec)]; trivial.
  assert (H : JS.trimStart (JS.trimEnd (String c r)) = JS.trimEnd (String c r)).
  { simpl. destruct (JS.trimEnd r); rewrite ?Ec; simpl; now rewrite Ec. }
  rewrite H. apply trimEnd_idempotent.
Qed.

Lemma required_string_not_empty (s : string) :
  negb (String.length (JS.trim s) =? 0)%nat = true -> s <> "".
Proof. intros H ->. discriminate H. Qed.

(** What [gatherUserInput] does, by cases on the three [validate] calls. *)
Lemma gatherUserInput_cases (pg : Page) :
  let enteredTitle := JS.trim (titleInputElem pg) in
  let enteredDescription := JS.trim (descriptionElem pg) in
  let people := JS.toNumber (JS.trim (peopleInputElem pg)) in
  (gatherUserInput pg = (Some (enteredTitle, enteredDescription, people), pg) /\
   enteredTitle <> "" /\
   (5 <= String.length enteredDescription)%nat /\
   JS.ge people (JS.of_Z 1) = true /\
   JS.le people (JS.of_Z 5) = true) \/
  gatherUserInput pg = (None, alert notice pg).
Proof.
  intros enteredTitle enteredDescription people.
  unfold gatherUserInput.
  fold enteredTitle enteredDescription people.
  destruct (validate (new_Validatable (Str enteredTitle) _ _ _ _ _)) eqn:Vt;
    [|now right].
  destruct (validate (new_Validatable (Str enteredDescription) _ _ _ _ _)) eqn:Vd;
    [|now right].
  destruct (validate (new_Validatable (Num people) _ _ _ _ _)) eqn:Vp;
    [|now right].
  left. split; [reflexivity|].
  cbv beta iota zeta delta
    [validate value required minLength maxLength min max Value_toString]
    in Vt, Vd, Vp.
  rewrite !andb_true_l in Vt, Vd, Vp.
  apply andb_true_iff in Vd. destruct Vd as [_ Vd].
  apply andb_true_iff in Vp. destruct Vp as [Vp Vmax].
  apply andb_true_iff in Vp. destruct Vp as [_ Vmin].
  repeat split; trivial.
  - now apply required_string_not_empty.
  - now apply length_at_least_5.
Qed.

(** C9, as it holds.  On every submission, either validation passes, and
    then [addProject] is called once, with the trimmed title, which is not
    empty, the trimmed description, which has at least 5 characters, and the
    number written in the people field, which is finite, positive, at least
    1 and at most 5 (an integer or not: [validate] compares it with the two
    bounds and nothing more), after which the form is cleared; or
    validation fails, and then the notice is shown with [alert], the
    registry is not called and is left as it was, and so is the page apart
    from the notice. *)
Theorem submit_reaches_registry_only_when_valid (random : JS.number)
    (projectState : ProjectState Page) (pg : Page) :
  let enteredTitle := JS.trim (titleInputElem pg) in
  let enteredDescription := JS.trim (descriptionElem pg) in
  let people := JS.toNumber (JS.trim (peopleInputElem pg)) in
  (gatherUserInput pg = (Some (enteredTitle, enteredDescription, people), pg) /\
   submit random projectState pg
   = (fst (addProject random enteredTitle enteredDescription people
                      projectState pg),
      clearInput (snd (addProject random enteredTitle enteredDescription people
                                  projectState pg))) /\
   JS.trim enteredTitle = enteredTitle /\
   enteredTitle <> "" /\
   JS.trim enteredDescription = enteredDescription /\
   (5 <= String.length enteredDescription)%nat /\
   JS.ge people (JS.of_Z 1) = true /\
   JS.le people (JS.of_Z 5) = true /\
   (exists m e, people = S754_finite false m e))
  \/
  (gatherUserInput pg = (None, alert notice pg) /\
   submit random projectState pg = (projectState, alert notice pg) /\
   alerts (alert notice pg) = alerts pg ++ [notice]).
Proof.
  intros enteredTitle enteredDescription people.
  destruct (gatherUserInput_cases pg) as [(Hg & Ht & Hd & Hmin & Hmax) | Hg].
  - left. fold enteredTitle enteredDescription people in Hg.
    repeat split; trivial.
    + unfold submit. rewrite Hg. reflexivity.
    + apply trim_idempotent.
    + apply trim_idempotent.
    + now apply between_1_and_5.
  - right. repeat split; trivial.
    unfold submit. now rewrite Hg.
Qed.


(* ================================================================== *)
(** * Concrete runs *)
(* ================================================================== *)

(** The end-to-end scenario of the specification: one [addProject], then
    the move of the new project to Finished. *)
Example scenario_add :
  addProject half "Build CLI" "Write a tool" (JS.of_Z 3) startup blank
  = (new_ProjectState [buildCLI Active] (listeners startup),
     new_Page "" "" "" [buildCLI Active] [] []).
Proof. vm_compute. reflexivity. Qed.

Example scenario_move :
  moveProject "0.5" Finished
    (new_ProjectState [buildCLI Active] (listeners startup))
    (new_Page "" "" "" [buildCLI Active] [] [])
  = (new_ProjectState [buildCLI Finished] (listeners startup),
     new_Page "" "" "" [] [buildCLI Finished] []).
Proof. vm_compute. reflexivity. Qed.

Example submit_valid :
  submit half startup (new_Page " Build CLI " "Write a tool" "3" [] [] [])
  = (new_ProjectState [buildCLI Active] (listeners startup),
     new_Page "" "" "" [buildCLI Active] [] []).
Proof. vm_compute. reflexivity. Qed.

Example submit_empty_title :
  submit half startup (new_Page "  " "Write a tool" "3" [] [] [])
  = (startup, new_Page "  " "Write a tool" "3" [] [] [notice]).
Proof. vm_compute. reflexivity. Qed.

Example submit_zero_people :
  submit half startup (new_Page "Build CLI" "Write a tool" "" [] [] [])
  = (startup, new_Page "Build CLI" "Write a tool" "" [] [] [notice]).
Proof. vm_compute. reflexivity. Qed.

(** ** Where the claims of the specification fail as they are worded *)

(** C1 as worded fails: [Math.random()] may return the same number in two
    calls, and the two entries of the Active view then carry the same id. *)
Lemma active_view_ids_can_coincide :
  let args : list AddArgs :=
    [(half, "Build CLI", "Write a tool", JS.of_Z 3);
     (half, "Write docs", "Explain the tool", JS.of_Z 2)] in
  let this := fst (run (map addCall args) (startup, blank)) in
  let view := relevantProjects active (projects this) in
  List.length view = 2%nat /\ ~ NoDup (map id view).
Proof.
  vm_compute. split; [reflexivity|].
  intros H. inversion H as [|x l Hn _]. apply Hn. now left.
Qed.

(** C4 as worded fails: a run of two [addProject] calls in which
    [Math.random()] returns 0.5 twice ends with two projects, at positions
    0 and 1 of the sequence, under the one id ["0.5"]. *)
Lemma reachable_state_with_shared_id :
  let this :=
    fst (run [CallAddProject half "Build CLI" "Write a tool" (JS.of_Z 3);
              CallAddProject half "Write docs" "Explain the tool" (JS.of_Z 2)]
             (fst (getInstance None), tt)) in
  exists p q,
    nth_error (projects this) 0 = Some p /\
    nth_error (projects this) 1 = Some q /\
    p <> q /\ id p = id q /\
    ~ NoDup (map id (projects this)).
Proof.
  vm_compute. do 2 eexists. repeat split.
  - discriminate.
  - intros H. inversion H as [|x l Hn _]. apply Hn. now left.
Qed.

(** C2 as worded fails in a state where two projects share an id.  After
    two [addProject] calls with the same random number and a move of that
    id to Finished, the second project has the id and is still Active, yet
    [moveProject(id, Finished)] finds the first one, which is Finished
    already: no listener is called (the log stays as it is), the registry
    is unchanged, and the Active project stays in the Active view. *)
Lemma moveProject_can_miss_a_project_with_the_id :
  let s :=
    run [CallAddProject half "Build CLI" "Write a tool" (JS.of_Z 3);
         CallAddProject half "Write docs" "Explain the tool" (JS.of_Z 2);
         CallMoveProject "0.5" Finished]
        (new_ProjectState [] (tracedFrom 0 (listeners startup)),
         (blank, [])) in
  let project := new_Project "0.5" "Write docs" "Explain the tool" (JS.of_Z 2) Active in
  let result := moveProject "0.5" Finished (fst s) (snd s) in
  In project (projects (fst s)) /\
  id project = "0.5" /\ status project <> Finished /\
  projects (fst result) = projects (fst s) /\
  snd (snd result) = snd (snd s) /\
  In project (relevantProjects active (projects (fst result))) /\
  ~ In project (relevantProjects finished (projects (fst result))).
Proof.
  vm_compute. repeat split; try discriminate.
  - right. now left.
  - now left.
  - intros [H|[]]. discriminate H.
Qed.

(** C9 as worded fails on the people count: with ["2.5"] in the people
    field the form passes validation and [addProject] is called with 2.5,
    which is not an integer. *)
Lemma submit_accepts_a_fractional_people_count :
  let pg := new_Page "Build CLI" "Write a tool" "2.5" [] [] [] in
  let result := submit half startup pg in
  exists project,
    projects (fst result) = [project] /\
    people project = JS.toNumber "2.5" /\
    JS.isInteger (people project) = false /\
    alerts (snd result) = [].
Proof. vm_compute. eexists. repeat split. Qed.

(** ** The statements with a hypothesis, at a concrete input *)

Lemma moveProject_silent_noop_witness :
  let this := new_ProjectState [buildCLI Active] (listeners startup) in
  (forall prj, In prj (projects this) -> id prj <> "0.25") /\
  moveProject "0.25" Finished this blank = (this, blank).
Proof.
  intros this.
  assert (H : forall prj, In prj (projects this) -> id prj <> "0.25")
    by (intros prj [<-|[]]; discriminate).
  split; [exact H|].
  exact (proj1 (moveProject_silent_noop Page this blank "0.25" Finished (or_introl H))).
Defined.

Lemma moveProject_changes_status_only_witness :
  let this := new_ProjectState [writeDocs Active; buildCLI Active] (listeners startup) in
  let this' := fst (moveProject "0.5" Finished this blank) in
  find (fun prj => String.eqb (id prj) "0.5") (projects this) = Some (buildCLI Active) /\
  map title (projects this') = map title (projects this).
Proof.
  intros this this'. split; [reflexivity|].
  apply (moveProject_changes_status_only Page this blank "0.5" Finished
           (buildCLI Active)); [reflexivity | discriminate].
Defined.

Lemma moveProject_first_match_only_witness :
  let this :=
    new_ProjectState [writeDocs Active; buildCLI Active; buildCLI Active]
                     (listeners startup) in
  let result := projects (fst (moveProject "0.5" Finished this blank)) in
  (forall prj, In prj [writeDocs Active] -> id prj <> "0.5") /\
  status (buildCLI Active) <> Finished /\
  result
  = [new_Project "0.25" "Write docs" "Explain the tool" (JS.of_Z 2) Active;
     new_Project "0.5" "Build CLI" "Write a tool" (JS.of_Z 3) Finished;
     new_Project "0.5" "Build CLI" "Write a tool" (JS.of_Z 3) Active] /\
  result <> projects this.
Proof.
  intros this result.
  assert (H : forall prj, In prj [writeDocs Active] -> id prj <> "0.5")
    by (intros prj [<-|[]]; discriminate).
  assert (Hs : status (buildCLI Active) <> Finished) by discriminate.
  destruct (proj1 (moveProject_first_match_only Page this blank "0.5" Finished)
              [writeDocs Active] (buildCLI Active) [buildCLI Active]
              eq_refl H eq_refl)
    as (Hr & _ & _ & _ & _ & Hchanged & _).
  split; [exact H|]. split; [exact Hs|]. split; [exact Hr | exact (Hchanged Hs)].
Defined.

Lemma notification_reaches_every_listener_in_order_witness :
  let fns := listeners startup in
  let this := new_ProjectState [buildCLI Active] (tracedFrom 0 fns) in
  status (buildCLI Active) <> Finished /\
  snd (snd (moveProject "0.5" Finished this (blank, [])))
  = [(0%nat, [buildCLI Finished]); (1%nat, [buildCLI Finished])].
Proof.
  intros fns this.
  assert (H : status (buildCLI Active) <> Finished) by discriminate.
  split; [exact H|].
  exact (f_equal (fun r => snd (snd r))
           (proj2 (notification_reaches_every_listener_in_order
                     Page fns [buildCLI Active] blank [])
              "0.5" Finished [] (buildCLI Active) []
              eq_refl (fun prj (F : In prj []) => match F with end) eq_refl H)).
Defined.

Lemma addListener_twice_runs_twice_witness :
  let count : Listener nat := fun _ n => S n in
  let twice := addListener count (addListener count (fst (getInstance None))) in
  let this := new_ProjectState [buildCLI Active] (listeners twice) in
  status (buildCLI Active) <> Finished /\
  snd (moveProject "0.5" Finished this 0%nat) = 2%nat.
Proof.
  intros count twice this.
  assert (H : status (buildCLI Active) <> Finished) by discriminate.
  split; [exact H|].
  exact (proj2 (proj2 (proj2
           (addListener_twice_runs_twice nat count
              (new_ProjectState [buildCLI Active] []) 0%nat)))
           "0.5" Finished [] (buildCLI Active) []
           eq_refl (fun prj (F : In prj []) => match F with end) eq_refl H).
Defined.

Lemma moveProject_moves_the_first_match_witness :
  let fns := listeners startup in
  let this :=
    new_ProjectState ([writeDocs Active] ++ buildCLI Active :: [])
                     (tracedFrom 0 fns) in
  let result := moveProject "0.5" Finished this (blank, []) in
  (forall prj, In prj [writeDocs Active] -> id prj <> "0.5") /\
  status (buildCLI Active) <> Finished /\
  projects (fst result) = [writeDocs Active; buildCLI Finished] /\
  snd (snd result)
  = round 2 [writeDocs Active; buildCLI Finished] /\
  relevantProjects finished (projects (fst result)) = [buildCLI Finished] /\
  relevantProjects active (projects (fst result)) = [writeDocs Active].
Proof.
  intros fns this result.
  assert (Hb : forall prj, In prj [writeDocs Active] -> id prj <> "0.5")
    by (intros prj [<-|[]]; discriminate).
  assert (Hs : status (buildCLI Active) <> Finished) by discriminate.
  destruct (moveProject_moves_the_first_match Page fns blank [] "0.5" Finished
              [writeDocs Active] [] (buildCLI Active) Hb eq_refl Hs)
    as (Hp & Hlog & _ & _ & Hother & Hprev & _).
  split; [exact Hb|]. split; [exact Hs|]. split; [exact Hp|].
  split; [exact Hlog|].
  split; [exact Hother | exact Hprev].
Defined.

Lemma ids_unique_when_random_draws_differ_witness :
  let calls : list (Call unit) :=
    [CallAddProject half "Build CLI" "Write a tool" (JS.of_Z 3);
     CallMoveProject "0.5" Finished;
     CallAddProject (JS.toNumber "0.25") "Write docs" "Explain the tool" (JS.of_Z 2)] in
  NoDup (map JS.toString (randoms calls)) /\
  NoDup (map id (projects (fst (run calls (fst (getInstance None), tt))))).
Proof.
  intros calls.
  assert (H : NoDup (map JS.toString (randoms calls))).
  { vm_compute. repeat constructor; simpl; intuition discriminate. }
  split; [exact H|].
  exact (proj1 (proj2 (ids_unique_when_random_draws_differ unit calls tt) H)).
Defined.

Lemma active_view_after_adds_witness :
  let args : list AddArgs :=
    [(half, "Build CLI", "Write a tool", JS.of_Z 3);
     (JS.toNumber "0.25", "Write docs", "Explain the tool", JS.of_Z 2)] in
  let this := fst (run (map addCall args) (startup, blank)) in
  NoDup (map drawn args) /\
  NoDup (map id (relevantProjects active (projects this))) /\
  aPL (snd (run (map addCall args) (startup, blank))) = map created args.
Proof.
  intros args this.
  assert (H : NoDup (map drawn args)).
  { vm_compute. repeat constructor; simpl; intuition discriminate. }
  destruct (active_view_after_adds Page (listeners startup) blank args)
    as (_ & _ & _ & Hiff & Hpage).
  split; [exact H|]. split; [exact (proj1 Hiff H)|].
  apply (Hpage blank). discriminate.
Defined.

(* ================================================================== *)
(** * The form boundary: what gets rejected, and what an accepted
      submission does to the page *)
(* ================================================================== *)

Lemma onlyWhiteSpace_trim (s : string) :
  onlyWhiteSpace s = true -> JS.trim s = "".
Proof.
  unfold JS.trim. induction s as [|c r IH]; simpl; trivial.
  intros H. apply andb_true_iff in H. destruct H as [Hc Hr].
  rewrite Hc. now apply IH.
Qed.

Lemma length_below_5 (n : nat) :
  (n < 5)%nat -> JS.ge (JS.of_nat n) (JS.of_Z 5) = false.
Proof.
  intros H.
  do 5 (destruct n as [|n]; [vm_compute; reflexivity|]).
  lia.
Qed.

(** [gatherUserInput] gives up as soon as one of the three [validate] calls
    fails. *)
Lemma gatherUserInput_rejects (pg : Page) :
  let enteredTitle := JS.trim (titleInputElem pg) in
  let enteredDescription := JS.trim (descriptionElem pg) in
  let people := JS.toNumber (JS.trim (peopleInputElem pg)) in
  String.length (JS.trim enteredTitle) = 0%nat \/
  String.length (JS.trim enteredDescription) = 0%nat \/
  JS.ge (JS.of_nat (String.length enteredDescription)) (JS.of_Z 5) = false \/
  JS.ge people (JS.of_Z 1) = false \/
  JS.le people (JS.of_Z 5) = false ->
  gatherUserInput pg = (None, alert notice pg).
Proof.
  intros enteredTitle enteredDescription people H.
  unfold gatherUserInput.
  fold enteredTitle enteredDescription people.
  cbv beta iota zeta delta
    [validate value required minLength maxLength min max Value_toString].
  rewrite !andb_true_l.
  destruct H as [H | [H | [H | [H | H]]]]; rewrite H; simpl;
    rewrite ?andb_false_r; simpl; rewrite ?orb_true_r; reflexivity.
Qed.

Lemma submit_rejected (random : JS.number) (projectState : ProjectState Page)
    (pg : Page) :
  gatherUserInput pg = (None, alert notice pg) ->
  submit random projectState pg = (projectState, alert notice pg).
Proof. intros H. unfold submit. now rewrite H. Qed.

Lemma submit_accepted (random : JS.number) (projectState : ProjectState Page)
    (pg : Page) (title desc : string) (people : JS.number) :
  gatherUserInput pg = (Some (title, desc, people), pg) ->
  let newProject := new_Project (JS.toString random) title desc people Active in
  submit random projectState pg
  = (new_ProjectState (projects projectState ++ [newProject])
                      (listeners projectState),
     clearInput (callListeners (listeners projectState)
                               (projects projectState ++ [newProject]) pg)).
Proof. intros H newProject. unfold submit. now rewrite H. Qed.

(** X1.  A submission whose title field is empty or holds white space only
    is rejected, whatever the other two fields hold: the notice is shown,
    the registry is not called, and the page keeps what was typed. *)
Theorem blank_title_is_rejected (random : JS.number)
    (projectState : ProjectState Page) (pg : Page) :
  onlyWhiteSpace (titleInputElem pg) = true ->
  submit random projectState pg = (projectState, alert notice pg) /\
  titleInputElem (alert notice pg) = titleInputElem pg /\
  descriptionElem (alert notice pg) = descriptionElem pg /\
  peopleInputElem (alert notice pg) = peopleInputElem pg.
Proof.
  intros H. split; [|now repeat split].
  apply submit_rejected, gatherUserInput_rejects. left.
  now rewrite (onlyWhiteSpace_trim _ H).
Qed.

(** X2.  A submission whose description, once trimmed, has fewer than 5
    characters is rejected, whatever the other two fields hold; white space
    around the text does not count towards the 5. *)
Theorem short_description_is_rejected (random : JS.number)
    (projectState : ProjectState Page) (pg : Page) :
  (String.length (JS.trim (descriptionElem pg)) < 5)%nat ->
  submit random projectState pg = (projectState, alert notice pg).
Proof.
  intros H. apply submit_rejected, gatherUserInput_rejects.
  right. right. left. now apply length_below_5.
Qed.

(** X3.  A submission is rejected, whatever title and description are,
    when the people field is empty or blank (it converts to 0), when it is
    no number ([+str] is NaN, which fails every comparison), and when the
    number is below 1 or above 5. *)
Theorem people_out_of_range_is_rejected (random : JS.number)
    (projectState : ProjectState Page) (pg : Page) :
  let people := JS.toNumber (JS.trim (peopleInputElem pg)) in
  onlyWhiteSpace (peopleInputElem pg) = true \/
  people = S754_nan \/
  JS.ge people (JS.of_Z 1) = false \/
  JS.le people (JS.of_Z 5) = false ->
  submit random projectState pg = (projectState, alert notice pg).
Proof.
  intros people H. apply submit_rejected, gatherUserInput_rejects.
  fold people. right. right. right.
  destruct H as [H | [H | [H | H]]].
  - left. unfold people. now rewrite (onlyWhiteSpace_trim _ H).
  - left. now rewrite H.
  - now left.
  - now right.
Qed.

(** X4.  An accepted submission, with the two lists of the program
    subscribed: the registry gains one Active project, built from the
    trimmed texts, at the end of its sequence; the three fields are
    cleared; no notice is shown; the active column shows the Active
    projects with the new one last, and the finished column the Finished
    ones. *)
Theorem accepted_submission_shows_the_project (random : JS.number)
    (projectState : ProjectState Page) (pg : Page)
    (title desc : string) (people : JS.number) :
  listeners projectState = listeners startup ->
  fst (gatherUserInput pg) = Some (title, desc, people) ->
  let newProject := new_Project (JS.toString random) title desc people Active in
  let result := submit random projectState pg in
  title = JS.trim (titleInputElem pg) /\
  desc = JS.trim (descriptionElem pg) /\
  projects (fst result) = projects projectState ++ [newProject] /\
  listeners (fst result) = listeners projectState /\
  titleInputElem (snd result) = "" /\
  descriptionElem (snd result) = "" /\
  peopleInputElem (snd result) = "" /\
  alerts (snd result) = alerts pg /\
  aPL (snd result)
  = relevantProjects active (projects projectState) ++ [newProject] /\
  fPL (snd result) = relevantProjects finished (projects projectState).
Proof.
  intros Hl Hg newProject result.
  destruct (gatherUserInput_cases pg) as [(Hc & _) | Hc];
    rewrite Hc in Hg; simpl in Hg; [|discriminate].
  injection Hg as Ht Hd Hp.
  rewrite Ht, Hd, Hp in Hc.
  unfold result. rewrite (submit_accepted random projectState pg _ _ _ Hc).
  fold newProject. rewrite Hl.
  destruct (columns_after_notification (projects projectState ++ [newProject]) pg)
    as (Ha & Hf & _ & _ & _ & Hal).
  remember (callListeners (listeners startup)
                          (projects projectState ++ [newProject]) pg) as pg'.
  cbn [fst snd clearInput titleInputElem descriptionElem peopleInputElem
       aPL fPL alerts projects listeners].
  repeat split; auto.
  - rewrite Ha. unfold relevantProjects. now rewrite filter_app.
  - rewrite Hf. unfold relevantProjects. rewrite filter_app. simpl.
    apply app_nil_r.
Qed.

(* ================================================================== *)
(** * The registry over time *)
(* ================================================================== *)

Lemma assignStatus_length (projectId : string) (newStatus : ProjectStatus)
    (items : list Project) :
  List.length (assignStatus projectId newStatus items) = List.length items.
Proof.
  induction items as [|prj rest IH]; simpl; trivial.
  destruct (String.eqb (id prj) projectId); simpl; congruence.
Qed.

Lemma assignStatus_details (projectId : string) (newStatus : ProjectStatus)
    (items : list Project) :
  map details (assignStatus projectId newStatus items) = map details items.
Proof.
  induction items as [|prj rest IH]; simpl; trivial.
  destruct (String.eqb (id prj) projectId); simpl; [reflexivity | congruence].
Qed.

(** The assignment leaves the projects with another id as they are. *)
Lemma assignStatus_other_id (projectId : string) (newStatus : ProjectStatus)
    (items : list Project) (i : nat) (p : Project) :
  nth_error items i = Some p -> id p <> projectId ->
  nth_error (assignStatus projectId newStatus items) i = Some p.
Proof.
  revert i. induction items as [|prj rest IH]; intros i Hi Hid; simpl.
  - destruct i; discriminate.
  - destruct (String.eqb (id prj) projectId) eqn:E.
    + destruct i as [|i]; simpl in *; trivial.
      injection Hi as ->. apply String.eqb_eq in E. contradiction.
    + destruct i as [|i]; simpl in *; trivial. now apply IH.
Qed.

(** [moveProject] either does nothing at all, or replaces the sequence by
    [assignStatus] of it and runs the listeners on the result. *)
Lemma moveProject_cases {W : Type} (this : ProjectState W) (w : W)
    (projectId : string) (newStatus : ProjectStatus) :
  moveProject projectId newStatus this w = (this, w) \/
  moveProject projectId newStatus this w
  = (new_ProjectState (assignStatus projectId newStatus (projects this))
                      (listeners this),
     callListeners (listeners this)
                   (assignStatus projectId newStatus (projects this)) w).
Proof.
  unfold moveProject, updateListeners.
  destruct (find _ (projects this)) as [project|]; [|now left].
  destruct (negb _); [now right | now left].
Qed.

(** X5.  [moveProject] is idempotent: a second call with the same id and
    status, right after the first, changes nothing and notifies nobody,
    whatever the first call did. *)
Theorem moveProject_twice_is_once (W : Type) (this : ProjectState W) (w : W)
    (projectId : string) (newStatus : ProjectStatus) :
  let once := moveProject projectId newStatus this w in
  moveProject projectId newStatus (fst once) (snd once) = once.
Proof.
  intros once.
  destruct (find (fun prj => String.eqb (id prj) projectId) (projects this))
    as [project|] eqn:Hfind.
  - destruct (find_first projectId _ _ Hfind) as (before & after & Hsplit & Hb & Hid).
    assert (E : once = if ProjectStatus_eqb (status project) newStatus
                       then (this, w)
                       else
                         let snapshot := before ++ set_status project newStatus :: after in
                         (new_ProjectState snapshot (listeners this),
                          callListeners (listeners this) snapshot w))
      by (apply moveProject_first; assumption).
    destruct (ProjectStatus_eqb (status project) newStatus) eqn:Es.
    + rewrite E. simpl. fold once. rewrite <- E. reflexivity.
    + rewrite E. cbv zeta. simpl fst. simpl snd.
      rewrite (moveProject_first
                 (new_ProjectState (before ++ set_status project newStatus :: after)
                                   (listeners this))
                 (callListeners (listeners this)
                    (before ++ set_status project newStatus :: after) w)
                 projectId newStatus before after
                 (set_status project newStatus) eq_refl Hb Hid).
      simpl. destruct newStatus; reflexivity.
  - assert (E : once = (this, w))
      by (unfold once, moveProject; now rewrite Hfind).
    rewrite E. simpl. fold once. now rewrite <- E.
Qed.

(** X6.  Moving a project to a status and then back to the status it had
    restores the project sequence exactly (the listeners have been told
    twice in between when the two statuses differ). *)
Theorem moveProject_there_and_back (W : Type) (this : ProjectState W) (w : W)
    (projectId : string) (otherStatus : ProjectStatus) (project : Project) :
  find (fun prj => String.eqb (id prj) projectId) (projects this) = Some project ->
  let there := moveProject projectId otherStatus this w in
  let back := moveProject projectId (status project) (fst there) (snd there) in
  projects (fst back) = projects this /\
  listeners (fst back) = listeners this.
Proof.
  intros Hfind there back.
  destruct (find_first projectId _ _ Hfind) as (before & after & Hsplit & Hb & Hid).
  assert (E : there = if ProjectStatus_eqb (status project) otherStatus
                      then (this, w)
                      else
                        let snapshot := before ++ set_status project otherStatus :: after in
                        (new_ProjectState snapshot (listeners this),
                         callListeners (listeners this) snapshot w))
    by (apply moveProject_first; assumption).
  unfold back. rewrite E.
  destruct (ProjectStatus_eqb (status project) otherStatus) eqn:Es.
  - simpl fst. simpl snd.
    rewrite (moveProject_first this w projectId (status project) before after
               project Hsplit Hb Hid).
    now rewrite (proj2 (ProjectStatus_eqb_eq _ _) eq_refl).
  - cbv zeta. simpl fst. simpl snd.
    rewrite (moveProject_first
               (new_ProjectState (before ++ set_status project otherStatus :: after)
                                 (listeners this))
               (callListeners (listeners this)
                  (before ++ set_status project otherStatus :: after) w)
               projectId (status project) before after
               (set_status project otherStatus) eq_refl Hb Hid).
    simpl status.
    assert (En : ProjectStatus_eqb otherStatus (status project) = false)
      by (destruct otherStatus, (status project); simpl in *; congruence).
    rewrite En. simpl. split; trivial.
    rewrite Hsplit. destruct project; reflexivity.
Qed.

Lemma call_details {W : Type} (c : Call W) (s : ProjectState W * W) :
  map details (projects (fst (call c s)))
  = map details (projects (fst s)) ++ map details (added [c]) /\
  listeners (fst (call c s)) = listeners (fst s) ++ subscribed [c].
Proof.
  destruct c as [f | random t d n | projectId newStatus]; simpl.
  - now rewrite !app_nil_r.
  - now rewrite map_app, !app_nil_r.
  - rewrite !app_nil_r.
    destruct (moveProject_cases (fst s) (snd s) projectId newStatus) as [-> | ->];
      simpl; auto using assignStatus_details.
Qed.

Lemma run_details {W : Type} (calls : list (Call W)) (s : ProjectState W * W) :
  map details (projects (fst (run calls s)))
  = map details (projects (fst s)) ++ map details (added calls) /\
  listeners (fst (run calls s)) = listeners (fst s) ++ subscribed calls.
Proof.
  revert s. induction calls as [|c rest IH]; intros s.
  - simpl. now rewrite !app_nil_r.
  - change (run (c :: rest) s) with (run rest (call c s)).
    destruct (IH (call c s)) as [-> ->].
    destruct (call_details c s) as [-> ->].
    assert (Ea : added (c :: rest) = added [c] ++ added rest)
      by (simpl; now rewrite app_nil_r).
    assert (Es : subscribed (c :: rest) = subscribed [c] ++ subscribed rest)
      by (simpl; now rewrite app_nil_r).
    now rewrite Ea, Es, map_app, !app_assoc.
Qed.

(** X7.  Projects are only ever appended.  Over any run of calls, from any
    state, the sequence keeps every project it had, in place and with its
    id, title, description and people count; behind them come the projects
    of the run's [addProject] calls, in call order.  Nothing is removed,
    reordered or rewritten but a status. *)
Theorem projects_are_only_appended (W : Type) (calls : list (Call W))
    (s : ProjectState W * W) :
  let after := projects (fst (run calls s)) in
  map details after = map details (projects (fst s)) ++ map details (added calls) /\
  List.length after
  = (List.length (projects (fst s)) + List.length (added calls))%nat /\
  (forall i p, nth_error (projects (fst s)) i = Some p ->
     exists q, nth_error after i = Some q /\ details q = details p).
Proof.
  intros after.
  assert (E : map details after
              = map details (projects (fst s)) ++ map details (added calls))
    by apply run_details.
  split; [exact E|]. split.
  - rewrite <- (length_map details after), E, length_app, !length_map.
    reflexivity.
  - intros i p Hp.
    assert (Hi : nth_error (map details after) i = Some (details p)).
    { rewrite E, nth_error_app1.
      - now rewrite nth_error_map, Hp.
      - rewrite length_map. apply nth_error_Some. congruence. }
    rewrite nth_error_map in Hi.
    destruct (nth_error after i) as [q|]; [|discriminate].
    exists q. split; trivial. simpl in Hi. congruence.
Qed.

(** X8.  Listeners are only ever appended: over any run of calls the
    subscriber list keeps its entries in order and gains the callbacks of
    the run's [addListener] calls at its end, in call order.  There is no
    way to unsubscribe. *)
Theorem listeners_are_only_appended (W : Type) (calls : list (Call W))
    (s : ProjectState W * W) :
  listeners (fst (run calls s)) = listeners (fst s) ++ subscribed calls /\
  (List.length (listeners (fst s)) <= List.length (listeners (fst (run calls s))))%nat.
Proof.
  assert (E : listeners (fst (run calls s)) = listeners (fst s) ++ subscribed calls)
    by apply run_details.
  split; [exact E|]. rewrite E, length_app. lia.
Qed.

Lemma call_keeps_other_ids {W : Type} (c : Call W) (s : ProjectState W * W)
    (i : nat) (p : Project) :
  nth_error (projects (fst s)) i = Some p ->
  ~ movesId (id p) [c] ->
  nth_error (projects (fst (call c s))) i = Some p.
Proof.
  intros Hp Hno.
  destruct c as [f | random t d n | projectId newStatus]; simpl; trivial.
  - rewrite nth_error_app1; trivial. apply nth_error_Some. congruence.
  - destruct (moveProject_cases (fst s) (snd s) projectId newStatus) as [-> | ->];
      simpl; trivial.
    apply assignStatus_other_id; trivial.
    intros Heq. apply Hno. exists newStatus. rewrite Heq. now left.
Qed.

(** X9.  A project changes only when [moveProject] is called with its id:
    over a run that holds no such call, the project stays at its position
    exactly as it was, status included, whatever else is added or moved. *)
Theorem project_unchanged_unless_moved_by_id (W : Type) (calls : list (Call W))
    (s : ProjectState W * W) (i : nat) (p : Project) :
  nth_error (projects (fst s)) i = Some p ->
  ~ movesId (id p) calls ->
  nth_error (projects (fst (run calls s))) i = Some p.
Proof.
  revert s. induction calls as [|c rest IH]; intros s Hp Hno; trivial.
  change (run (c :: rest) s) with (run rest (call c s)).
  apply IH.
  - apply call_keeps_other_ids; trivial.
    intros [newStatus [H|[]]]. apply Hno. exists newStatus. now left.
  - intros [newStatus H]. apply Hno. exists newStatus. now right.
Qed.

(** X10.  The two columns split the sequence: every project is in exactly
    one of the two filtered views, the active one if its status is Active
    and the finished one otherwise, and the two views together are a
    rearrangement of the whole sequence. *)
Theorem each_project_is_in_exactly_one_column (items : list Project) :
  Permutation (relevantProjects active items ++ relevantProjects finished items)
              items /\
  (List.length (relevantProjects active items)
   + List.length (relevantProjects finished items) = List.length items)%nat /\
  (forall p, In p items ->
     (status p = Active /\ In p (relevantProjects active items)
      /\ ~ In p (relevantProjects finished items)) \/
     (status p = Finished /\ In p (relevantProjects finished items)
      /\ ~ In p (relevantProjects active items))).
Proof.
  assert (P : Permutation
                (relevantProjects active items ++ relevantProjects finished items)
                items).
  { induction items as [|prj rest IH]; simpl; [constructor|].
    unfold relevantProjects in *. simpl.
    destruct (status prj); simpl.
    - now constructor.
    - apply Permutation_sym, Permutation_cons_app, Permutation_sym, IH. }
  split; [exact P|]. split.
  - rewrite <- length_app. now apply Permutation_length.
  - intros p Hin. unfold relevantProjects.
    destruct (status p) eqn:Es; [left | right]; repeat split; trivial.
    + apply filter_In. now rewrite Es.
    + intros H. apply filter_In in H. rewrite Es in H. destruct H. discriminate.
    + apply filter_In. now rewrite Es.
    + intros H. apply filter_In in H. rewrite Es in H. destruct H. discriminate.
Qed.

(** X11.  [validate] applies a bound only to a value of the matching type:
    on a string [min] and [max] are ignored, on a number [minLength] and
    [maxLength] are.  A string is never compared with [min] or [max], so
    [{value: "abc", min: 5}] passes. *)
Theorem validate_ignores_bounds_of_the_other_type
    (req : option bool) (minLen maxLen lo hi : option JS.number) :
  (forall s,
      validate (new_Validatable (Str s) req minLen maxLen lo hi)
      = validate (new_Validatable (Str s) req minLen maxLen None None)) /\
  (forall n,
      validate (new_Validatable (Num n) req minLen maxLen lo hi)
      = validate (new_Validatable (Num n) req None None lo hi)) /\
  validate (new_Validatable (Str "abc") None None None (Some (JS.of_Z 5)) None)
  = true.
Proof.
  repeat split; intros;
    cbv beta iota zeta delta
      [validate value required minLength maxLength min max];
    destruct minLen, maxLen, lo, hi; reflexivity.
Qed.

(* ================================================================== *)
(** * The page in use *)
(* ================================================================== *)

Lemma relevantProjects_split (type : ListType) (before after : list Project)
    (x : Project) :
  relevantProjects type (before ++ x :: after)
  = relevantProjects type before
    ++ relevantProjects type [x] ++ relevantProjects type after.
Proof.
  unfold relevantProjects.
  change (x :: after) with ([x] ++ after). now rewrite !filter_app.
Qed.

(** One event keeps the columns in step with the registry; a submission
    adds one project or one notice, any other event neither. *)
Lemma handle_keeps_sync (e : Event) (s : ProjectState Page * Page) :
  inSync s ->
  inSync (handle e s) /\
  exists k,
    alerts (snd (handle e s)) = alerts (snd s) ++ repeat notice k /\
    (List.length (projects (fst (handle e s))) + k
     = List.length (projects (fst s)) + submissions [e])%nat.
Proof.
  destruct s as [ps pg]. intros (Hl & Ha & Hf). cbn [fst snd] in Hl, Ha, Hf.
  destruct e as [t d p | random | type prjId]; simpl handle.
  - split; [now repeat split|].
    exists O. simpl. rewrite app_nil_r. split; [trivial | unfold submissions; simpl; lia].
  - destruct (gatherUserInput_cases pg) as [(Hg & _) | Hg].
    + rewrite (submit_accepted random ps pg _ _ _ Hg). cbv zeta.
      rewrite Hl.
      match goal with
      | |- context [callListeners (listeners startup) ?items pg] =>
          destruct (columns_after_notification items pg)
            as (Ha' & Hf' & _ & _ & _ & Hal');
          remember (callListeners (listeners startup) items pg) as pg'
      end.
      unfold inSync.
      cbn [fst snd clearInput aPL fPL alerts projects listeners].
      split; [now repeat split|].
      exists O. simpl. rewrite app_nil_r, length_app. split; [trivial | unfold submissions; simpl; lia].
    + rewrite (submit_rejected random ps pg Hg).
      unfold inSync, alert.
      cbn [fst snd aPL fPL alerts projects listeners].
      split; [now repeat split|].
      exists 1%nat. split; [trivial | unfold submissions; simpl; lia].
  - unfold drop.
    change (match type with active => Active | finished => Finished end)
      with (statusOf type).
    destruct (moveProject_cases ps pg prjId (statusOf type)) as [E | E];
      rewrite E.
    + split; [now repeat split|].
      exists O. simpl. rewrite app_nil_r. split; [trivial | unfold submissions; simpl; lia].
    + rewrite Hl.
      match goal with
      | |- context [callListeners (listeners startup) ?items pg] =>
          destruct (columns_after_notification items pg)
            as (Ha' & Hf' & _ & _ & _ & Hal');
          remember (callListeners (listeners startup) items pg) as pg'
      end.
      unfold inSync.
      cbn [fst snd aPL fPL alerts projects listeners].
      split; [now repeat split|].
      exists O. simpl. rewrite app_nil_r, assignStatus_length. split; [trivial | unfold submissions; simpl; lia].
Qed.

Lemma handleAll_keeps_sync (events : list Event) (s : ProjectState Page * Page) :
  inSync s ->
  inSync (handleAll events s) /\
  exists k,
    alerts (snd (handleAll events s)) = alerts (snd s) ++ repeat notice k /\
    (List.length (projects (fst (handleAll events s))) + k
     = List.length (projects (fst s)) + submissions events)%nat.
Proof.
  revert s. induction events as [|e rest IH]; intros s Hs.
  - split; trivial. exists O. simpl. rewrite app_nil_r. split; [trivial | unfold submissions; simpl; lia].
  - change (handleAll (e :: rest) s) with (handleAll rest (handle e s)).
    destruct (handle_keeps_sync e s Hs) as (Hs1 & k1 & Ha1 & Hc1).
    destruct (IH (handle e s) Hs1) as (Hs2 & k2 & Ha2 & Hc2).
    split; trivial. exists (k1 + k2)%nat. split.
    + now rewrite Ha2, Ha1, <- app_assoc, repeat_app.
    + assert (E : submissions (e :: rest)
                  = (submissions [e] + submissions rest)%nat)
        by (unfold submissions; simpl; destruct e; reflexivity).
      lia.
Qed.

(** X12.  The columns never go stale.  From start-up, with both columns
    empty, after any sequence of typing, submissions and drops (whatever
    the payloads), the active column holds exactly the Active projects of
    the registry and the finished column exactly the Finished ones, each in
    insertion order, and the subscribers are still the two lists. *)
Theorem columns_follow_the_registry (events : list Event)
    (title description people : string) (shown : list string) :
  let s := handleAll events
             (startup, new_Page title description people [] [] shown) in
  aPL (snd s) = relevantProjects active (projects (fst s)) /\
  fPL (snd s) = relevantProjects finished (projects (fst s)) /\
  listeners (fst s) = listeners startup.
Proof.
  intros s.
  destruct (handleAll_keeps_sync events
              (startup, new_Page title description people [] [] shown))
    as ((Hl & Ha & Hf) & _); [now repeat split|].
  auto.
Qed.

(** X13.  Every submission has exactly one of two outcomes.  From start-up
    with nothing shown yet, after any sequence of typing, submissions and
    drops, the number of projects in the registry plus the number of
    notices shown equals the number of submissions, and the alerts are
    notices and nothing else; typing and drops add neither a project nor an
    alert. *)
Theorem every_submission_adds_a_project_or_shows_the_notice
    (events : list Event) (title description people : string) :
  let s := handleAll events
             (startup, new_Page title description people [] [] []) in
  exists rejected,
    alerts (snd s) = repeat notice rejected /\
    (List.length (projects (fst s)) + rejected = submissions events)%nat.
Proof.
  intros s.
  destruct (handleAll_keeps_sync events
              (startup, new_Page title description people [] [] []))
    as (_ & k & Ha & Hc); [now repeat split|].
  exists k. split; [exact Ha | exact Hc].
Qed.

(** X14.  A drop that moves a card.  With the two lists subscribed, a drop
    on the list of one type, carrying the id of a project whose status is
    the other one (the first project with that id), puts the project, now
    with the status of that list, into its column at its place in insertion
    order and takes it out of the other column; the fields and the alerts
    of the page are untouched. *)
Theorem drop_moves_the_card_between_columns (type : ListType)
    (projectState : ProjectState Page) (pg : Page)
    (before after : list Project) (project : Project) :
  listeners projectState = listeners startup ->
  projects projectState = before ++ project :: after ->
  (forall prj, In prj before -> id prj <> id project) ->
  status project <> statusOf type ->
  let moved := set_status project (statusOf type) in
  let from := listOf (status project) in
  let result := drop type (id project) projectState pg in
  projects (fst result) = before ++ moved :: after /\
  assignedProjects type (snd result)
  = relevantProjects type before ++ moved :: relevantProjects type after /\
  assignedProjects from (snd result)
  = relevantProjects from before ++ relevantProjects from after /\
  titleInputElem (snd result) = titleInputElem pg /\
  descriptionElem (snd result) = descriptionElem pg /\
  peopleInputElem (snd result) = peopleInputElem pg /\
  alerts (snd result) = alerts pg.
Proof.
  intros Hl Hsplit Hb Hst moved from result.
  assert (E : result
              = (new_ProjectState (before ++ moved :: after) (listeners startup),
                 callListeners (listeners startup) (before ++ moved :: after) pg)).
  { unfold result, drop.
    change (match type with active => Active | finished => Finished end)
      with (statusOf type).
    rewrite (moveProject_first projectState pg (id project) (statusOf type)
               before after project Hsplit Hb eq_refl).
    rewrite (proj2 (ProjectStatus_eqb_neq _ _) Hst). cbv zeta.
    now rewrite Hl. }
  rewrite E.
  destruct (columns_after_notification (before ++ moved :: after) pg)
    as (Ha & Hf & Ht & Hd & Hp & Hal).
  remember (callListeners (listeners startup) (before ++ moved :: after) pg)
    as pg'.
  cbn [fst snd projects]. repeat split; trivial.
  - unfold moved. destruct type; simpl assignedProjects;
      rewrite ?Ha, ?Hf, relevantProjects_split; reflexivity.
  - unfold from, moved.
    destruct type, (status project) eqn:Es; simpl in Hst; try congruence;
      simpl assignedProjects; rewrite ?Ha, ?Hf, relevantProjects_split;
      reflexivity.
Qed.

Lemma trimStart_empty (s : string) :
  JS.trimStart s = "" -> onlyWhiteSpace s = true.
Proof.
  induction s as [|c r IH]; simpl; trivial.
  destruct (JS.isWhiteSpace c); [exact IH | discriminate].
Qed.

Lemma trimEnd_empty (s : string) :
  JS.trimEnd s = "" -> onlyWhiteSpace s = true.
Proof.
  induction s as [|c r IH]; simpl; trivial.
  destruct (JS.trimEnd r) eqn:E; [|discriminate].
  destruct (JS.isWhiteSpace c); [intros _; now apply IH | discriminate].
Qed.

Lemma trim_empty_iff (s : string) :
  JS.trim s = "" <-> onlyWhiteSpace s = true.
Proof.
  split; [|apply onlyWhiteSpace_trim].
  unfold JS.trim. intros H.
  destruct (trimStart_head s) as [E | (c & r & E & Ec)].
  - now apply trimStart_empty.
  - rewrite E in H. apply trimEnd_empty in H. simpl in H.
    rewrite Ec in H. discriminate.
Qed.

(** X15.  [required] on a string rejects exactly the blank strings: with no
    other constraint, [validate] fails when the string is empty or holds
    white space only and passes on every other string; without [required]
    (absent or false) every string passes, the empty one too. *)
Theorem required_rejects_exactly_the_blank_strings (s : string) :
  validate (new_Validatable (Str s) (Some true) None None None None)
  = negb (onlyWhiteSpace s) /\
  validate (new_Validatable (Str s) (Some false) None None None None) = true /\
  validate (new_Validatable (Str s) None None None None None) = true.
Proof.
  split; [|split; reflexivity].
  cbv beta iota zeta delta
    [validate value required minLength maxLength min max Value_toString].
  rewrite andb_true_l.
  destruct (onlyWhiteSpace s) eqn:E.
  - now rewrite (onlyWhiteSpace_trim s E).
  - destruct (JS.trim s) eqn:Et; [|reflexivity].
    apply trim_empty_iff in Et. congruence.
Qed.

(** X16.  Submitting twice without typing in between cannot create the
    project twice: an accepted submission clears the form, so the next
    submission finds a blank title and is rejected, leaving the registry
    with the one new project and showing the notice. *)
Theorem second_submission_without_typing_is_rejected (random again : JS.number)
    (projectState : ProjectState Page) (pg : Page)
    (title desc : string) (people : JS.number) :
  listeners projectState = listeners startup ->
  fst (gatherUserInput pg) = Some (title, desc, people) ->
  let first := submit random projectState pg in
  let second := submit again (fst first) (snd first) in
  fst second = fst first /\
  projects (fst second)
  = projects projectState
    ++ [new_Project (JS.toString random) title desc people Active] /\
  alerts (snd second) = alerts pg ++ [notice].
Proof.
  intros Hl Hg first second.
  destruct (gatherUserInput_cases pg) as [(Hc & _) | Hc];
    rewrite Hc in Hg; simpl in Hg; [|discriminate].
  injection Hg as Ht Hd Hp. rewrite Ht, Hd, Hp in Hc.
  assert (E1 : first
               = (new_ProjectState
                    (projects projectState
                     ++ [new_Project (JS.toString random) title desc people Active])
                    (listeners startup),
                  clearInput
                    (callListeners (listeners startup)
                       (projects projectState
                        ++ [new_Project (JS.toString random) title desc people Active])
                       pg))).
  { unfold first. rewrite (submit_accepted random projectState pg _ _ _ Hc).
    now rewrite Hl. }
  destruct (columns_after_notification
              (projects projectState
               ++ [new_Project (JS.toString random) title desc people Active]) pg)
    as (_ & _ & _ & _ & _ & Hal).
  assert (E2 : second = (fst first, alert notice (snd first))).
  { unfold second. apply submit_rejected, gatherUserInput_rejects.
    left. rewrite E1. reflexivity. }
  rewrite E2, E1.
  remember (callListeners (listeners startup)
              (projects projectState
               ++ [new_Project (JS.toString random) title desc people Active]) pg)
    as pg'.
  cbn [fst snd alert alerts clearInput projects]. rewrite Hal.
  now repeat split.
Qed.

(** ** The statements above that have a hypothesis, at a concrete input *)

Lemma blank_title_is_rejected_witness :
  let pg := new_Page "   " "Write a tool" "3" [] [] [] in
  onlyWhiteSpace (titleInputElem pg) = true /\
  submit half startup pg = (startup, alert notice pg).
Proof.
  intros pg.
  assert (H : onlyWhiteSpace (titleInputElem pg) = true) by reflexivity.
  split; [exact H|].
  exact (proj1 (blank_title_is_rejected half startup pg H)).
Defined.

Lemma short_description_is_rejected_witness :
  let pg := new_Page "Build CLI" "  tool  " "3" [] [] [] in
  (String.length (JS.trim (descriptionElem pg)) < 5)%nat /\
  submit half startup pg = (startup, alert notice pg).
Proof.
  intros pg.
  assert (H : (String.length (JS.trim (descriptionElem pg)) < 5)%nat)
    by (vm_compute; lia).
  split; [exact H|].
  exact (short_description_is_rejected half startup pg H).
Defined.

Lemma people_out_of_range_is_rejected_witness :
  let pg := new_Page "Build CLI" "Write a tool" "six" [] [] [] in
  JS.toNumber (JS.trim (peopleInputElem pg)) = S754_nan /\
  submit half startup pg = (startup, alert notice pg).
Proof.
  intros pg.
  assert (H : JS.toNumber (JS.trim (peopleInputElem pg)) = S754_nan)
    by (vm_compute; reflexivity).
  split; [exact H|].
  exact (people_out_of_range_is_rejected half startup pg (or_intror (or_introl H))).
Defined.

Lemma accepted_submission_shows_the_project_witness :
  let pg := new_Page " Build CLI " "Write a tool" "3" [] [] [] in
  let newProject :=
    new_Project (JS.toString half) "Build CLI" "Write a tool" (JS.of_Z 3) Active in
  fst (gatherUserInput pg) = Some ("Build CLI", "Write a tool", JS.of_Z 3) /\
  aPL (snd (submit half startup pg))
  = relevantProjects active (projects startup) ++ [newProject] /\
  titleInputElem (snd (submit half startup pg)) = "".
Proof.
  intros pg newProject.
  assert (H : fst (gatherUserInput pg)
              = Some ("Build CLI", "Write a tool", JS.of_Z 3))
    by (vm_compute; reflexivity).
  destruct (accepted_submission_shows_the_project half startup pg
              "Build CLI" "Write a tool" (JS.of_Z 3) eq_refl H)
    as (_ & _ & _ & _ & Ht & _ & _ & _ & Ha & _).
  split; [exact H|]. split; [exact Ha | exact Ht].
Defined.

Lemma moveProject_there_and_back_witness :
  let this := new_ProjectState [writeDocs Active; buildCLI Active] (listeners startup) in
  let there := moveProject "0.5" Finished this blank in
  find (fun prj => String.eqb (id prj) "0.5") (projects this) = Some (buildCLI Active) /\
  projects (fst (moveProject "0.5" Active (fst there) (snd there)))
  = [writeDocs Active; buildCLI Active].
Proof.
  intros this there.
  assert (H : find (fun prj => String.eqb (id prj) "0.5") (projects this)
              = Some (buildCLI Active)) by reflexivity.
  split; [exact H|].
  exact (proj1 (moveProject_there_and_back Page this blank "0.5" Finished
                  (buildCLI Active) H)).
Defined.

Lemma projects_are_only_appended_witness :
  let s := (new_ProjectState [buildCLI Active] (listeners startup), blank) in
  let calls : list (Call Page) :=
    [CallMoveProject "0.5" Finished;
     CallAddProject (JS.toNumber "0.25") "Write docs" "Explain the tool" (JS.of_Z 2)] in
  nth_error (projects (fst s)) 0 = Some (buildCLI Active) /\
  exists q, nth_error (projects (fst (run calls s))) 0 = Some q /\
            details q = details (buildCLI Active).
Proof.
  intros s calls.
  assert (H : nth_error (projects (fst s)) 0 = Some (buildCLI Active))
    by reflexivity.
  split; [exact H|].
  exact (proj2 (proj2 (projects_are_only_appended Page calls s))
           O (buildCLI Active) H).
Defined.

Lemma project_unchanged_unless_moved_by_id_witness :
  let s := (new_ProjectState [buildCLI Active; writeDocs Active]
                             (listeners startup), blank) in
  let calls : list (Call Page) :=
    [CallMoveProject "0.25" Finished;
     CallAddProject half "Build CLI again" "Write a tool" (JS.of_Z 3)] in
  ~ movesId (id (buildCLI Active)) calls /\
  nth_error (projects (fst (run calls s))) 0 = Some (buildCLI Active).
Proof.
  intros s calls.
  assert (H : ~ movesId (id (buildCLI Active)) calls).
  { intros [newStatus [H | [H | []]]]; discriminate H. }
  split; [exact H|].
  exact (project_unchanged_unless_moved_by_id Page calls s O (buildCLI Active)
           eq_refl H).
Defined.

Lemma each_project_is_in_exactly_one_column_witness :
  let items := [buildCLI Finished; writeDocs Active] in
  In (buildCLI Finished) items /\
  ((status (buildCLI Finished) = Active
    /\ In (buildCLI Finished) (relevantProjects active items)
    /\ ~ In (buildCLI Finished) (relevantProjects finished items)) \/
   (status (buildCLI Finished) = Finished
    /\ In (buildCLI Finished) (relevantProjects finished items)
    /\ ~ In (buildCLI Finished) (relevantProjects active items))).
Proof.
  intros items.
  assert (H : In (buildCLI Finished) items) by (now left).
  split; [exact H|].
  exact (proj2 (proj2 (each_project_is_in_exactly_one_column items))
           (buildCLI Finished) H).
Defined.

Lemma drop_moves_the_card_between_columns_witness :
  let this := new_ProjectState ([writeDocs Active] ++ buildCLI Active :: [])
                               (listeners startup) in
  let result := drop finished "0.5" this blank in
  (forall prj, In prj [writeDocs Active] -> id prj <> id (buildCLI Active)) /\
  status (buildCLI Active) <> statusOf finished /\
  assignedProjects finished (snd result) = [buildCLI Finished] /\
  assignedProjects active (snd result) = [writeDocs Active].
Proof.
  intros this result.
  assert (Hb : forall prj, In prj [writeDocs Active] -> id prj <> id (buildCLI Active))
    by (intros prj [<-|[]]; discriminate).
  assert (Hs : status (buildCLI Active) <> statusOf finished) by discriminate.
  destruct (drop_moves_the_card_between_columns finished this blank
              [writeDocs Active] [] (buildCLI Active) eq_refl eq_refl Hb Hs)
    as (_ & Hto & Hfrom & _).
  split; [exact Hb|]. split; [exact Hs|]. split; [exact Hto | exact Hfrom].
Defined.

Lemma second_submission_without_typing_is_rejected_witness :
  let pg := new_Page " Build CLI " "Write a tool" "3" [] [] [] in
  let first := submit half startup pg in
  fst (gatherUserInput pg) = Some ("Build CLI", "Write a tool", JS.of_Z 3) /\
  fst (submit (JS.toNumber "0.25") (fst first) (snd first)) = fst first.
Proof.
  intros pg first.
  assert (H : fst (gatherUserInput pg)
              = Some ("Build CLI", "Write a tool", JS.of_Z 3))
    by (vm_compute; reflexivity).
  split; [exact H|].
  exact (proj1 (second_submission_without_typing_is_rejected
                  half (JS.toNumber "0.25") startup pg
                  "Build CLI" "Write a tool" (JS.of_Z 3) eq_refl H)).
Defined.

(* ================================================================== *)
(** * How calls of the registry compose *)
(* ================================================================== *)

(** Whatever [moveProject] decides, the sequence it leaves is
    [assignStatus] of the one it found. *)
Lemma projects_after_move {W : Type} (this : ProjectState W) (w : W)
    (projectId : string) (newStatus : ProjectStatus) :
  projects (fst (moveProject projectId newStatus this w))
  = assignStatus projectId newStatus (projects this).
Proof.
  destruct (find (fun prj => String.eqb (id prj) projectId) (projects this))
    as [project|] eqn:Hfind.
  - destruct (find_first projectId _ _ Hfind) as (before & after & Hsplit & Hb & Hid).
    rewrite (moveProject_first this w _ newStatus _ _ _ Hsplit Hb Hid), Hsplit.
    rewrite (assignStatus_first projectId newStatus before after project Hb Hid).
    destruct (ProjectStatus_eqb (status project) newStatus) eqn:E; simpl; trivial.
    apply ProjectStatus_eqb_eq in E. now rewrite <- E, set_status_same.
  - unfold moveProject. rewrite Hfind. simpl.
    pose proof (proj1 (find_absent projectId (projects this)) Hfind) as Habs.
    clear Hfind. induction (projects this) as [|prj rest IH]; simpl; trivial.
    assert (E : String.eqb (id prj) projectId = false)
      by (apply String.eqb_neq, Habs; now left).
    rewrite E. f_equal. apply IH. intros q Hq. apply Habs. now right.
Qed.

Lemma assignStatus_commutes (a b : string) (Sa Sb : ProjectStatus)
    (items : list Project) :
  a <> b ->
  assignStatus b Sb (assignStatus a Sa items)
  = assignStatus a Sa (assignStatus b Sb items).
Proof.
  intros Hab. induction items as [|prj rest IH]; simpl; trivial.
  destruct (String.eqb (id prj) a) eqn:Ea, (String.eqb (id prj) b) eqn:Eb;
    simpl; rewrite ?Ea, ?Eb; trivial.
  - apply String.eqb_eq in Ea, Eb. congruence.
  - now rewrite IH.
Qed.

Lemma assignStatus_again (a : string) (S1 S2 : ProjectStatus)
    (items : list Project) :
  assignStatus a S2 (assignStatus a S1 items) = assignStatus a S2 items.
Proof.
  induction items as [|prj rest IH]; simpl; trivial.
  destruct (String.eqb (id prj) a) eqn:Ea; simpl; rewrite Ea; trivial.
  now rewrite IH.
Qed.

(** X17.  Moves of two different ids commute on the project sequence: in
    either order the two calls leave the same sequence (the listeners may
    have been told in a different order). *)
Theorem moves_of_different_ids_commute (W : Type) (this : ProjectState W)
    (w : W) (a b : string) (Sa Sb : ProjectStatus) :
  a <> b ->
  let ab := moveProject a Sa this w in
  let ba := moveProject b Sb this w in
  projects (fst (moveProject b Sb (fst ab) (snd ab)))
  = projects (fst (moveProject a Sa (fst ba) (snd ba))).
Proof.
  intros Hab ab ba. unfold ab, ba.
  rewrite !projects_after_move. now apply assignStatus_commutes.
Qed.

(** X18.  The last move wins: two [moveProject] calls for the same id, one
    after the other, leave the sequence that the second call alone would
    have left. *)
Theorem last_move_wins (W : Type) (this : ProjectState W) (w : W)
    (projectId : string) (S1 S2 : ProjectStatus) :
  let first := moveProject projectId S1 this w in
  projects (fst (moveProject projectId S2 (fst first) (snd first)))
  = projects (fst (moveProject projectId S2 this w)).
Proof.
  intros first. unfold first.
  rewrite !projects_after_move. apply assignStatus_again.
Qed.

(** X19.  A project just added can be moved by its id when no older project
    carries that id: after [addProject] and then [moveProject] with the
    string of the random number and Finished, the new project stands last
    in the sequence with status Finished, every older project is as it was,
    and the listeners have been run twice, first on the sequence with the
    new project Active and then on the final one. *)
Theorem added_project_moves_by_its_id (W : Type) (this : ProjectState W) (w : W)
    (random : JS.number) (title description : string) (numOfPeople : JS.number) :
  (forall prj, In prj (projects this) -> id prj <> JS.toString random) ->
  let newId := JS.toString random in
  let fresh := new_Project newId title description numOfPeople in
  let added := addProject random title description numOfPeople this w in
  moveProject newId Finished (fst added) (snd added)
  = (new_ProjectState (projects this ++ [fresh Finished]) (listeners this),
     callListeners (listeners this) (projects this ++ [fresh Finished])
       (callListeners (listeners this) (projects this ++ [fresh Active]) w)).
Proof.
  intros Hfresh newId fresh added.
  exact (moveProject_first (fst added) (snd added) newId Finished
           (projects this) [] (fresh Active) eq_refl Hfresh eq_refl).
Qed.

Lemma moves_of_different_ids_commute_witness :
  let this := new_ProjectState [buildCLI Active; writeDocs Active] (listeners startup) in
  let ab := moveProject "0.5" Finished this blank in
  let ba := moveProject "0.25" Finished this blank in
  "0.5" <> "0.25" /\
  projects (fst (moveProject "0.25" Finished (fst ab) (snd ab)))
  = projects (fst (moveProject "0.5" Finished (fst ba) (snd ba))).
Proof.
  intros this ab ba.
  assert (H : "0.5" <> "0.25") by discriminate.
  split; [exact H|].
  exact (moves_of_different_ids_commute Page this blank "0.5" "0.25"
           Finished Finished H).
Defined.

Lemma added_project_moves_by_its_id_witness :
  let this := new_ProjectState [writeDocs Active] (listeners startup) in
  let added := addProject half "Build CLI" "Write a tool" (JS.of_Z 3) this blank in
  (forall prj, In prj (projects this) -> id prj <> JS.toString half) /\
  projects (fst (moveProject (JS.toString half) Finished (fst added) (snd added)))
  = projects this
    ++ [new_Project (JS.toString half) "Build CLI" "Write a tool" (JS.of_Z 3) Finished].
Proof.
  intros this added.
  assert (H : forall prj, In prj (projects this) -> id prj <> JS.toString half)
    by (intros prj [<-|[]]; vm_compute; discriminate).
  split; [exact H|].
  exact (f_equal (fun r => projects (fst r))
           (added_project_moves_by_its_id Page this blank half
              "Build CLI" "Write a tool" (JS.of_Z 3) H)).
Defined.
